(** * The HCP status parser of osdctl ([cmd/hcp/status])

    A shallow embedding of the parser that turns the OCM "live resources"
    mapping of a hosted-control-plane cluster into an [HCPStatus]:
    [parseFeedbackValues], [parseManifestWorkSyncStatus],
    [parseMainManifestWork], [parseManifestWorkNodePools],
    [parseCertificate] and [parseLiveResources].

    Go strings are byte strings ([string]), Go maps are [gmap]s, slices are
    lists (a nil slice and an empty one are both [[]]), [int] is [Z], a
    pointer that may be nil is an [option] and a [(value, error)] result is
    a pair whose second component is [option error].

    Layout: the library calls ([Go]), the data model, the parsers over a
    [Runtime] (the two calls that read raw text: [json.Unmarshal] and
    [time.Parse]), a concrete [Runtime] on text ([Json], [Bind],
    [Rfc3339]), the vocabulary of the statements, the documents used as
    examples; then the properties: the flattener, each document parser,
    the aggregator, and the parsers run on text.

    Two functions next to the parser are embedded as well, each over the
    one remote call it makes: [GetHiveShard] with [GetHiveCluster]
    ([pkg/utils/ocm.go]) and [getNodeAwsInstanceData]
    ([cmd/cluster/resizenode.go]). Their properties, and more properties
    of the parsers, close the file. *)

From Stdlib Require Import ZArith String Ascii List Lia.
From stdpp Require Import gmap strings list fin_maps sorting pretty.

Open Scope string_scope.
Open Scope list_scope.
Open Scope Z_scope.

(** ** The Go standard library, as far as the parser calls it *)

Module Go.

(** [error]: the text of [err.Error()]. *)
Definition error := string.

(** [fmt.Errorf(prefix + "%w", err)]: the text of the wrapping error. *)
Definition Errorf_w (prefix : string) (err : error) : error := prefix +:+ err.

(** [m[k]] on a [map[string]bool] / [map[string]string]: the zero value
    when the key is absent. *)
Definition index_bool (m : gmap string bool) (k : string) : bool :=
  default false (m !! k).
Definition index_string (m : gmap string string) (k : string) : string :=
  default "" (m !! k).

(** [strings.HasPrefix(s, prefix)]. *)
Definition HasPrefix (s prefix : string) : bool := String.prefix prefix s.

(** [strings.Cut(s, "-")]: the text before and after the first hyphen. *)
Fixpoint cut_hyphen (s : string) : option (string * string) :=
  match s with
  | EmptyString => None
  | String c rest =>
      if Ascii.eqb c "-" then Some (EmptyString, rest)
      else match cut_hyphen rest with
           | Some (before, after) => Some (String c before, after)
           | None => None
           end
  end.

(** [strings.SplitN(s, "-", 2)]: one part when [s] has no hyphen, else the
    two parts around the first one. *)
Definition SplitN_hyphen_2 (s : string) : list string :=
  match cut_hyphen s with
  | Some (before, after) => [before; after]
  | None => [s]
  end.

(** [strings.Split(s, ",")]: the fields between the commas, at least one. *)
Fixpoint Split_comma_go (cur : string) (s : string) : list string :=
  match s with
  | EmptyString => [String.rev cur]
  | String c rest =>
      if Ascii.eqb c "," then String.rev cur :: Split_comma_go EmptyString rest
      else Split_comma_go (String c cur) rest
  end.
Definition Split_comma (s : string) : list string := Split_comma_go EmptyString s.


(** A Go [int] on the 64-bit targets osdctl is built for. *)
Definition int_min : Z := - 2 ^ 63.
Definition int_max : Z := 2 ^ 63 - 1.
Definition is_int (n : Z) : bool := (int_min <=? n) && (n <=? int_max).

(** [fmt.Sprintf("%d", n)]. *)
Definition Sprintf_d (n : Z) : string := pretty n.

(** The value of a run of decimal digits, [None] on any other byte. *)
Definition digit_val (c : ascii) : option Z :=
  let n := Z.of_nat (nat_of_ascii c) in
  if (48 <=? n) && (n <=? 57) then Some (n - 48) else None.

Fixpoint digits_val (acc : Z) (s : string) : option Z :=
  match s with
  | EmptyString => Some acc
  | String c rest =>
      match digit_val c with
      | Some d => digits_val (acc * 10 + d) rest
      | None => None
      end
  end.

(** [strconv.Atoi(s)]: an optional sign and one or more decimal digits whose
    value fits an [int]; [None] stands for a non-nil error. *)
Definition Atoi (s : string) : option Z :=
  let '(neg, ds) :=
    match s with
    | String "-" rest => (true, rest)
    | String "+" rest => (false, rest)
    | _ => (false, s)
    end in
  match ds with
  | EmptyString => None
  | _ =>
      match digits_val 0 ds with
      | Some n => let v := if neg : bool then - n else n in
                  if is_int v then Some v else None
      | None => None
      end
  end.

(** [sort.Strings]: the sorted arrangement of the slice (bytewise
    lexicographic order). *)
Definition sort_Strings (l : list string) : list string := merge_sort String.le l.

(** [time.Time], as the instant it denotes: nanoseconds since the zero
    [Time] (January 1, year 1, 00:00:00 UTC). *)
Definition Time := Z.
Definition zeroTime : Time := 0.
Definition After (t u : Time) : bool := u <? t.

End Go.

Export Go.

(** ** Data model ([types.go]) *)

Record ManifestWorkSync := {
  ManifestWorkSync_Name : string;
  ManifestWorkSync_Applied : bool;
  ManifestWorkSync_Available : bool;
  ManifestWorkSync_LastSyncTime : Time }.

Record VersionInfo := {
  Version_Current : string;
  Version_Desired : string;
  Version_Status : string;
  Version_Image : string;
  Version_AvailableUpdates : list string }.

(** [Ready] is a [*bool]: [None] is unknown. *)
Record CertificateStatus := {
  Cert_Ready : option bool;
  Cert_NotAfter : Time;
  Cert_RenewalTime : Time;
  Cert_DNSNames : list string }.

Record Condition := {
  Condition_Type : string;
  Condition_Status : string;
  Condition_Reason : string;
  Condition_Message : string;
  Condition_LastTransitionTime : string }.

Record NodePoolStatus := {
  NodePool_Name : string;
  NodePool_Replicas : Z;
  NodePool_Version : string;
  NodePool_Conditions : list Condition }.

Record mainMWResult := {
  Result_Conditions : list Condition;
  Result_Version : VersionInfo;
  Result_MgmtCluster : string;
  Result_Certificate : option CertificateStatus }.

Record FieldValue := {
  FieldValue_Type : string;
  FieldValue_String : string;
  FieldValue_Integer : Z }.

Record FeedbackValue := {
  FeedbackValue_Name : string;
  FeedbackValue_FieldValue : FieldValue }.

Record HCPStatus := {
  ClusterID : string;
  ClusterName : string;
  ClusterState : string;
  ManagementCluster : string;
  Version : VersionInfo;
  APIServerCertificate : option CertificateStatus;
  IngressCertificate : option CertificateStatus;
  ManifestWorks : list ManifestWorkSync;
  HostedClusterConditions : list Condition;
  NodePools : list NodePoolStatus }.

Definition zeroVersionInfo : VersionInfo :=
  {| Version_Current := ""; Version_Desired := ""; Version_Status := "";
     Version_Image := ""; Version_AvailableUpdates := [] |}.

Definition zeroCertificateStatus : CertificateStatus :=
  {| Cert_Ready := None; Cert_NotAfter := zeroTime;
     Cert_RenewalTime := zeroTime; Cert_DNSNames := [] |}.

Definition zeroManifestWorkSync : ManifestWorkSync :=
  {| ManifestWorkSync_Name := ""; ManifestWorkSync_Applied := false;
     ManifestWorkSync_Available := false;
     ManifestWorkSync_LastSyncTime := zeroTime |}.

Definition zeroHCPStatus : HCPStatus :=
  {| ClusterID := ""; ClusterName := ""; ClusterState := "";
     ManagementCluster := ""; Version := zeroVersionInfo;
     APIServerCertificate := None; IngressCertificate := None;
     ManifestWorks := []; HostedClusterConditions := []; NodePools := [] |}.

(** [&Condition{Type: condType}] *)
Definition newCondition (condType : string) : Condition :=
  {| Condition_Type := condType; Condition_Status := ""; Condition_Reason := "";
     Condition_Message := ""; Condition_LastTransitionTime := "" |}.

(** ** [parseFeedbackValues] *)

Definition conditionFields : gmap string bool :=
  <["Status" := true]> (<["Reason" := true]> (<["Message" := true]>
    (<["LastTransitionTime" := true]> ∅))).

Definition nonConditionPrefixes : gmap string bool := <["Version" := true]> ∅.

(** The [switch field] of the loop body, applied to the condition [c]
    points to. *)
Definition setField (field val : string) (c : Condition) : Condition :=
  if String.eqb field "Status" then
    {| Condition_Type := Condition_Type c; Condition_Status := val;
       Condition_Reason := Condition_Reason c;
       Condition_Message := Condition_Message c;
       Condition_LastTransitionTime := Condition_LastTransitionTime c |}
  else if String.eqb field "Reason" then
    {| Condition_Type := Condition_Type c; Condition_Status := Condition_Status c;
       Condition_Reason := val;
       Condition_Message := Condition_Message c;
       Condition_LastTransitionTime := Condition_LastTransitionTime c |}
  else if String.eqb field "Message" then
    {| Condition_Type := Condition_Type c; Condition_Status := Condition_Status c;
       Condition_Reason := Condition_Reason c;
       Condition_Message := val;
       Condition_LastTransitionTime := Condition_LastTransitionTime c |}
  else if String.eqb field "LastTransitionTime" then
    {| Condition_Type := Condition_Type c; Condition_Status := Condition_Status c;
       Condition_Reason := Condition_Reason c;
       Condition_Message := Condition_Message c;
       Condition_LastTransitionTime := val |}
  else c.

(** The three variables the loop of [parseFeedbackValues] updates.
    [conditionMap] holds pointers in the source; every pointer is stored
    under one key only and is dereferenced through the map, so the map of
    the pointed-to records is the whole store. *)
Record flattenState := {
  conditionMap : gmap string Condition;
  conditionOrder : list string;
  extras : gmap string string }.

Definition flattenInit : flattenState :=
  {| conditionMap := ∅; conditionOrder := []; extras := ∅ |}.

(** [val]: the string payload, or the integer one in decimal. *)
Definition feedbackVal (fv : FeedbackValue) : string :=
  let f := FeedbackValue_FieldValue fv in
  if String.eqb (FieldValue_Type f) "Integer" then Sprintf_d (FieldValue_Integer f)
  else FieldValue_String f.

(** One iteration of [for _, fv := range values]. *)
Definition flattenStep (st : flattenState) (fv : FeedbackValue) : flattenState :=
  let val := feedbackVal fv in
  match SplitN_hyphen_2 (FeedbackValue_Name fv) with
  | [condType; field] =>
      if index_bool conditionFields field && negb (index_bool nonConditionPrefixes condType)
      then
        let st1 :=
          match conditionMap st !! condType with
          | Some _ => st
          | None => {| conditionMap := <[condType := newCondition condType]> (conditionMap st);
                       conditionOrder := conditionOrder st ++ [condType];
                       extras := extras st |}
          end in
        {| conditionMap := alter (setField field val) condType (conditionMap st1);
           conditionOrder := conditionOrder st1;
           extras := extras st1 |}
      else
        {| conditionMap := conditionMap st; conditionOrder := conditionOrder st;
           extras := <[FeedbackValue_Name fv := val]> (extras st) |}
  | _ =>
      {| conditionMap := conditionMap st; conditionOrder := conditionOrder st;
         extras := <[FeedbackValue_Name fv := val]> (extras st) |}
  end.

(** [*conditionMap[t]]: a key of [conditionOrder] is always in the map
    (lemma [flatten_spec]); the default stands for the nil dereference that
    cannot happen. *)
Definition derefCondition (m : gmap string Condition) (t : string) : Condition :=
  default (newCondition "") (m !! t).

Definition parseFeedbackValues (values : list FeedbackValue)
  : list Condition * gmap string string :=
  let st := fold_left flattenStep values flattenInit in
  (map (derefCondition (conditionMap st)) (conditionOrder st), extras st).

Definition fvString (name val : string) : FeedbackValue :=
  {| FeedbackValue_Name := name;
     FeedbackValue_FieldValue :=
       {| FieldValue_Type := "String"; FieldValue_String := val; FieldValue_Integer := 0 |} |}.
Definition fvInteger (name : string) (n : Z) : FeedbackValue :=
  {| FeedbackValue_Name := name;
     FeedbackValue_FieldValue :=
       {| FieldValue_Type := "Integer"; FieldValue_String := ""; FieldValue_Integer := n |} |}.

(** ** The documents, as [encoding/json] decodes them

    Each parser declares an anonymous struct and hands it to
    [json.Unmarshal]; the records below are those structs, with the nested
    anonymous structs flattened into one record where they have no
    identity of their own. *)

(** An element of [status.conditions] in [parseManifestWorkSyncStatus]. *)
Record syncCondition := {
  syncCondition_Type : string;
  syncCondition_Status : string;
  syncCondition_LastTransitionTime : string }.

Record syncDoc := {
  syncDoc_Metadata_Name : string;
  syncDoc_Status_Conditions : list syncCondition }.

Record resourceMeta := {
  ResourceMeta_Group : string;
  ResourceMeta_Kind : string;
  ResourceMeta_Name : string;
  ResourceMeta_Resource : string }.

(** An element of [status.resourceStatus.manifests]. *)
Record manifest := {
  manifest_ResourceMeta : resourceMeta;
  manifest_StatusFeedback_Values : list FeedbackValue }.

Record mainDoc := {
  mainDoc_Metadata_Labels : gmap string string;
  mainDoc_Manifests : list manifest }.

Record poolDoc := { poolDoc_Manifests : list manifest }.

Record certCondition := {
  certCondition_Type : string;
  certCondition_Status : string }.

Record certDoc := {
  certDoc_Spec_DNSNames : list string;
  certDoc_Status_Conditions : list certCondition;
  certDoc_Status_NotAfter : string;
  certDoc_Status_RenewalTime : string }.

(** The outcome of [json.Unmarshal([]byte(jsonStr), &doc)]. *)
Inductive decoded (A : Type) : Type :=
  | Decoded (doc : A)
  | DecodeError (err : error).
Arguments Decoded {A} doc.
Arguments DecodeError {A} err.

(** The two library calls the parsers make on raw text: [json.Unmarshal]
    into each of the four document structs and
    [time.Parse(time.RFC3339, _)]. The parsers are written over any
    implementation of them. *)
Class Runtime := {
  Unmarshal_sync : string -> decoded syncDoc;
  Unmarshal_main : string -> decoded mainDoc;
  Unmarshal_pool : string -> decoded poolDoc;
  Unmarshal_cert : string -> decoded certDoc;
  Parse_RFC3339 : string -> option Time }.

Section Parsers.

Context {rt : Runtime}.

(** *** [parseManifestWorkSyncStatus] *)

(** The [switch c.Type] of the loop body. *)
Definition syncFlags (result : ManifestWorkSync) (c : syncCondition) : ManifestWorkSync :=
  if String.eqb (syncCondition_Type c) "Applied" then
    {| ManifestWorkSync_Name := ManifestWorkSync_Name result;
       ManifestWorkSync_Applied := String.eqb (syncCondition_Status c) "True";
       ManifestWorkSync_Available := ManifestWorkSync_Available result;
       ManifestWorkSync_LastSyncTime := ManifestWorkSync_LastSyncTime result |}
  else if String.eqb (syncCondition_Type c) "Available" then
    {| ManifestWorkSync_Name := ManifestWorkSync_Name result;
       ManifestWorkSync_Applied := ManifestWorkSync_Applied result;
       ManifestWorkSync_Available := String.eqb (syncCondition_Status c) "True";
       ManifestWorkSync_LastSyncTime := ManifestWorkSync_LastSyncTime result |}
  else result.

(** The update of [mostRecentTime] in the loop body. *)
Definition syncTime (mostRecentTime : Time) (c : syncCondition) : Time :=
  if negb (String.eqb (syncCondition_LastTransitionTime c) "") then
    match Parse_RFC3339 (syncCondition_LastTransitionTime c) with
    | Some t => if After t mostRecentTime then t else mostRecentTime
    | None => mostRecentTime
    end
  else mostRecentTime.

Definition syncStep (acc : ManifestWorkSync * Time) (c : syncCondition)
  : ManifestWorkSync * Time :=
  (syncFlags (fst acc) c, syncTime (snd acc) c).

Definition parseManifestWorkSyncStatus (jsonStr : string)
  : ManifestWorkSync * option error :=
  match Unmarshal_sync jsonStr with
  | DecodeError err => (zeroManifestWorkSync, Some (Errorf_w "invalid JSON: " err))
  | Decoded mw =>
      let result0 :=
        {| ManifestWorkSync_Name := syncDoc_Metadata_Name mw;
           ManifestWorkSync_Applied := false;
           ManifestWorkSync_Available := false;
           ManifestWorkSync_LastSyncTime := zeroTime |} in
      let '(result, mostRecentTime) :=
        fold_left syncStep (syncDoc_Status_Conditions mw) (result0, zeroTime) in
      ({| ManifestWorkSync_Name := ManifestWorkSync_Name result;
          ManifestWorkSync_Applied := ManifestWorkSync_Applied result;
          ManifestWorkSync_Available := ManifestWorkSync_Available result;
          ManifestWorkSync_LastSyncTime := mostRecentTime |}, None)
  end.

(** *** [parseMainManifestWork] *)

(** The locals [conditions], [version] and [cert] of the manifest loop. *)
Record mainState := {
  main_conditions : list Condition;
  main_version : VersionInfo;
  main_cert : option CertificateStatus }.

(** [if v, ok := extras[key]; ok { field = v }] *)
Definition orExtra (extras : gmap string string) (key : string) (old : string) : string :=
  match extras !! key with Some v => v | None => old end.

Definition hostedClusterVersion (extras : gmap string string) (version : VersionInfo)
  : VersionInfo :=
  {| Version_Current := orExtra extras "Version-Current" (Version_Current version);
     Version_Desired := orExtra extras "Version-Desired" (Version_Desired version);
     Version_Status := orExtra extras "Version-Status" (Version_Status version);
     Version_Image := orExtra extras "Version-Image" (Version_Image version);
     Version_AvailableUpdates :=
       match extras !! "Version-AvailableUpdates" with
       | Some v => if negb (String.eqb v "") then Split_comma v
                   else Version_AvailableUpdates version
       | None => Version_AvailableUpdates version
       end |}.

Definition mainStep (st : mainState) (m : manifest) : mainState :=
  let kind := ResourceMeta_Kind (manifest_ResourceMeta m) in
  if String.eqb kind "HostedCluster" then
    let '(conds, extras) := parseFeedbackValues (manifest_StatusFeedback_Values m) in
    {| main_conditions := conds;
       main_version := hostedClusterVersion extras (main_version st);
       main_cert := main_cert st |}
  else if String.eqb kind "Certificate" then
    {| main_conditions := main_conditions st;
       main_version := main_version st;
       main_cert := Some zeroCertificateStatus |}
  else st.

Definition mainInit : mainState :=
  {| main_conditions := []; main_version := zeroVersionInfo; main_cert := None |}.

Definition managementClusterLabel : string := "api.openshift.com/management-cluster".

Definition parseMainManifestWork (jsonStr : string) : option mainMWResult * option error :=
  match Unmarshal_main jsonStr with
  | DecodeError err => (None, Some (Errorf_w "invalid JSON: " err))
  | Decoded mw =>
      let mgmtCluster := index_string (mainDoc_Metadata_Labels mw) managementClusterLabel in
      let st := fold_left mainStep (mainDoc_Manifests mw) mainInit in
      (Some {| Result_Conditions := main_conditions st;
               Result_Version := main_version st;
               Result_MgmtCluster := mgmtCluster;
               Result_Certificate := main_cert st |}, None)
  end.

(** *** [parseManifestWorkNodePools] *)

(** The body of the loop for an entry of kind NodePool. *)
Definition nodePoolOf (m : manifest) : NodePoolStatus :=
  let '(conds, extras) := parseFeedbackValues (manifest_StatusFeedback_Values m) in
  {| NodePool_Name := ResourceMeta_Name (manifest_ResourceMeta m);
     NodePool_Replicas :=
       match extras !! "Replicas" with
       | Some v => match Atoi v with Some n => n | None => 0 end
       | None => 0
       end;
     NodePool_Version := orExtra extras "Version" "";
     NodePool_Conditions := conds |}.

Definition nodePoolStep (nodePools : list NodePoolStatus) (m : manifest)
  : list NodePoolStatus :=
  if negb (String.eqb (ResourceMeta_Kind (manifest_ResourceMeta m)) "NodePool")
  then nodePools
  else nodePools ++ [nodePoolOf m].

Definition parseManifestWorkNodePools (jsonStr : string)
  : list NodePoolStatus * option error :=
  match Unmarshal_pool jsonStr with
  | DecodeError err => ([], Some (Errorf_w "invalid JSON: " err))
  | Decoded mw => (fold_left nodePoolStep (poolDoc_Manifests mw) [], None)
  end.

(** *** [parseCertificate] *)

Definition certReadyStep (ready : option bool) (c : certCondition) : option bool :=
  if String.eqb (certCondition_Type c) "Ready"
  then Some (String.eqb (certCondition_Status c) "True")
  else ready.

(** [if s != "" { t, err := time.Parse(..); if err == nil { field = t } }] *)
Definition certTime (s : string) : Time :=
  if negb (String.eqb s "") then
    match Parse_RFC3339 s with Some t => t | None => zeroTime end
  else zeroTime.

Definition parseCertificate (jsonStr : string) : option CertificateStatus * option error :=
  match Unmarshal_cert jsonStr with
  | DecodeError err => (None, Some (Errorf_w "invalid JSON: " err))
  | Decoded cert =>
      (Some {| Cert_Ready := fold_left certReadyStep (certDoc_Status_Conditions cert) None;
               Cert_NotAfter := certTime (certDoc_Status_NotAfter cert);
               Cert_RenewalTime := certTime (certDoc_Status_RenewalTime cert);
               Cert_DNSNames := certDoc_Spec_DNSNames cert |}, None)
  end.

(** *** [parseLiveResources]

    Go leaves the order in which [range] visits a map unspecified, so each
    of the two [range resources] loops takes the order it happens to run in
    as an argument: a list of the entries of [resources]
    ([rangeOrder]). *)

Definition rangeOrder (resources : gmap string string) (order : list (string * string)) : Prop :=
  order ≡ₚ map_to_list resources.

(** First pass: the keys with the manifest_work prefix, in visiting order. *)
Definition collectManifestWorkKeys (order : list (string * string)) : list string :=
  filter (fun key => HasPrefix key "manifest_work-" = true) (order.*1).

(** The loop over [manifestWorkKeys] that fills [status.ManifestWorks];
    [inr] is the early [return nil, err]. *)
Fixpoint syncLoop (resources : gmap string string) (keys : list string)
    (manifestWorks : list ManifestWorkSync) : list ManifestWorkSync + error :=
  match keys with
  | [] => inl manifestWorks
  | key :: rest =>
      let jsonStr := index_string resources key in
      match parseManifestWorkSyncStatus jsonStr with
      | (_, Some err) =>
          inr (Errorf_w ("failed to parse ManifestWork sync status for " +:+ key +:+ ": ") err)
      | (mws, None) => syncLoop resources rest (manifestWorks ++ [mws])
      end
  end.

(** The loop over [manifestWorkKeys] that fills [status.NodePools]. *)
Fixpoint nodePoolLoop (resources : gmap string string) (keys : list string)
    (nodePools : list NodePoolStatus) : list NodePoolStatus + error :=
  match keys with
  | [] => inl nodePools
  | key :: rest =>
      match parseManifestWorkNodePools (index_string resources key) with
      | (_, Some err) =>
          inr (Errorf_w ("failed to parse NodePool from " +:+ key +:+ ": ") err)
      | (nps, None) => nodePoolLoop resources rest (nodePools ++ nps)
      end
  end.

(** The last loop: the first visited key with the certificate prefix is
    parsed and the loop left ([break]). *)
Fixpoint certLoop (order : list (string * string)) (status : HCPStatus)
  : option HCPStatus * option error :=
  match order with
  | [] => (Some status, None)
  | (key, jsonStr) :: rest =>
      if HasPrefix key "certificate-" then
        match parseCertificate jsonStr with
        | (_, Some err) => (None, Some (Errorf_w "failed to parse ingress certificate: " err))
        | (cert, None) =>
            (Some {| ClusterID := ClusterID status; ClusterName := ClusterName status;
                     ClusterState := ClusterState status;
                     ManagementCluster := ManagementCluster status;
                     Version := Version status;
                     APIServerCertificate := APIServerCertificate status;
                     IngressCertificate := cert;
                     ManifestWorks := ManifestWorks status;
                     HostedClusterConditions := HostedClusterConditions status;
                     NodePools := NodePools status |}, None)
        end
      else certLoop rest status
  end.

(** The block guarded by [if mainMWJSON, exists := resources[mainMWKey]]:
    the four fields it may assign, or the error. *)
Definition mainBlock (resources : gmap string string) (mainMWKey : string)
  : (list Condition * VersionInfo * string * option CertificateStatus) + error :=
  match resources !! mainMWKey with
  | Some mainMWJSON =>
      match parseMainManifestWork mainMWJSON with
      | (Some result, None) =>
          inl (Result_Conditions result, Result_Version result,
               Result_MgmtCluster result,
               match Result_Certificate result with
               | Some c => Some c
               | None => None
               end)
      | (_, Some err) => inr (Errorf_w "failed to parse main ManifestWork: " err)
      | (None, None) => inl ([], zeroVersionInfo, "", None)
      end
  | None => inl ([], zeroVersionInfo, "", None)
  end.

Definition parseLiveResources (order1 order2 : list (string * string))
    (resources : gmap string string) (clusterID : string)
  : option HCPStatus * option error :=
  let manifestWorkKeys := sort_Strings (collectManifestWorkKeys order1) in
  let mainMWKey := "manifest_work-" +:+ clusterID in
  match syncLoop resources manifestWorkKeys [] with
  | inr err => (None, Some err)
  | inl manifestWorks =>
      match mainBlock resources mainMWKey with
      | inr err => (None, Some err)
      | inl (conditions, version, mgmtCluster, apiCert) =>
          match nodePoolLoop resources manifestWorkKeys [] with
          | inr err => (None, Some err)
          | inl nodePools =>
              certLoop order2
                {| ClusterID := ""; ClusterName := ""; ClusterState := "";
                   ManagementCluster := mgmtCluster;
                   Version := version;
                   APIServerCertificate := apiCert;
                   IngressCertificate := None;
                   ManifestWorks := manifestWorks;
                   HostedClusterConditions := conditions;
                   NodePools := nodePools |}
          end
      end
  end.

End Parsers.

(** ** A reader for JSON text

    An implementation of the four [Unmarshal_*] calls, to run the parsers on
    JSON text such as the documents of [parser_test.go]. It covers the JSON
    grammar (whitespace, literals, numbers, strings with their escapes,
    arrays, objects) and the binding rules of [encoding/json] the document
    structs rely on: keys match field names without regard to ASCII case,
    unknown keys are skipped, [null] and absent members leave the zero
    value, a value of the wrong JSON kind is an error. The text is taken to
    be valid UTF-8. The reader is stricter than [encoding/json] in two
    places: an object bound to a struct that repeats a key, or has a key
    with a byte outside ASCII, is reported as an error. The properties
    below are proved for every [Runtime]; this one serves to run the
    parsers on documents. *)

Module Json.

#[local] Set Warnings "-register-all".

Inductive value : Type :=
  | Null
  | Bool (b : bool)
  | Number (literal : string)
  | Str (s : string)
  | Array (elements : list value)
  | Object (members : list (string * value)).

#[global] Instance decoded_bind : MBind decoded := fun A B f m =>
  match m with
  | Decoded a => f a
  | DecodeError e => DecodeError e
  end.

(** The double quote. *)
Definition dquote : ascii := "034"%char.

Definition errEnd : error := "unexpected end of JSON input".
Definition errChar (c : ascii) (context : string) : error :=
  "invalid character '" +:+ String c "' " +:+ context.

Definition isSpace (c : ascii) : bool :=
  Ascii.eqb c " " || Ascii.eqb c "009" || Ascii.eqb c "010" || Ascii.eqb c "013".

Fixpoint skipSpace (s : string) : string :=
  match s with
  | String c rest => if isSpace c then skipSpace rest else s
  | EmptyString => s
  end.

Definition isDigit (c : ascii) : bool :=
  match digit_val c with Some _ => true | None => false end.

Fixpoint spanDigits (s : string) : string * string :=
  match s with
  | String c rest =>
      if isDigit c then let '(ds, rest') := spanDigits rest in (String c ds, rest')
      else (EmptyString, s)
  | EmptyString => (EmptyString, EmptyString)
  end.

Definition errAt (s : string) (context : string) : error :=
  match s with
  | EmptyString => errEnd
  | String c _ => errChar c context
  end.

(** A number literal at the head of [s]: the literal and the rest. *)
Definition readNumber (s : string) : decoded (string * string) :=
  let '(sign, s1) :=
    match s with String "-" rest => ("-", rest) | _ => ("", s) end in
  match s1 with
  | String c rest1 =>
      if isDigit c then
        let '(int, s2) :=
          if Ascii.eqb c "0" then ("0", rest1) else spanDigits s1 in
        '(frac, s3) ←
          match s2 with
          | String "." rest2 =>
              let '(ds, rest3) := spanDigits rest2 in
              if String.eqb ds "" then DecodeError (errAt rest2 "after decimal point in numeric literal")
              else Decoded ("." +:+ ds, rest3)
          | _ => Decoded ("", s2)
          end;
        '(exp, s4) ←
          match s3 with
          | String e rest4 =>
              if Ascii.eqb e "e" || Ascii.eqb e "E" then
                let '(esign, rest5) :=
                  match rest4 with
                  | String "+" r => ("+", r)
                  | String "-" r => ("-", r)
                  | _ => ("", rest4)
                  end in
                let '(ds, rest6) := spanDigits rest5 in
                if String.eqb ds "" then DecodeError (errAt rest5 "in exponent of numeric literal")
                else Decoded (String e (esign +:+ ds), rest6)
              else Decoded ("", s3)
          | EmptyString => Decoded ("", s3)
          end;
        Decoded (sign +:+ int +:+ frac +:+ exp, s4)
      else DecodeError (errChar c "in numeric literal")
  | EmptyString => DecodeError errEnd
  end.

Definition hexVal (c : ascii) : option N :=
  let n := N_of_ascii c in
  if (48 <=? n)%N && (n <=? 57)%N then Some (n - 48)%N
  else if (65 <=? n)%N && (n <=? 70)%N then Some (n - 55)%N
  else if (97 <=? n)%N && (n <=? 102)%N then Some (n - 87)%N
  else None.

Definition hex4 (s : string) : option (N * string) :=
  match s with
  | String a (String b (String c (String d rest))) =>
      match hexVal a, hexVal b, hexVal c, hexVal d with
      | Some a, Some b, Some c, Some d => Some ((((a * 16 + b) * 16 + c) * 16 + d)%N, rest)
      | _, _, _, _ => None
      end
  | _ => None
  end.

(** The UTF-8 encoding of a code point. *)
Definition utf8 (n : N) : string :=
  let byte (k : N) := ascii_of_N k in
  (if n <? 128 then String (byte n) ""
   else if n <? 2048 then
     String (byte (192 + n / 64)) (String (byte (128 + n mod 64)) "")
   else if n <? 65536 then
     String (byte (224 + n / 4096))
       (String (byte (128 + (n / 64) mod 64)) (String (byte (128 + n mod 64)) ""))
   else
     String (byte (240 + n / 262144))
       (String (byte (128 + (n / 4096) mod 64))
          (String (byte (128 + (n / 64) mod 64)) (String (byte (128 + n mod 64)) ""))))%N.

Definition simpleEscape (c : ascii) : option ascii :=
  if Ascii.eqb c dquote then Some dquote
  else if Ascii.eqb c "\" then Some "\"%char
  else if Ascii.eqb c "/" then Some "/"%char
  else if Ascii.eqb c "b" then Some "008"%char
  else if Ascii.eqb c "f" then Some "012"%char
  else if Ascii.eqb c "n" then Some "010"%char
  else if Ascii.eqb c "r" then Some "013"%char
  else if Ascii.eqb c "t" then Some "009"%char
  else None.

(** The code point of a [\u] escape whose four digits gave [n], and the
    rest of the text: a surrogate pair is one code point, a surrogate alone
    is U+FFFD. *)
Definition unicodeEscape (n : N) (rest : string) : N * string :=
  if ((55296 <=? n) && (n <? 56320))%N then
    match rest with
    | String "\" (String "u" rest1) =>
        match hex4 rest1 with
        | Some (n2, rest2) =>
            if ((56320 <=? n2) && (n2 <? 57344))%N
            then ((65536 + (n - 55296) * 1024 + (n2 - 56320))%N, rest2)
            else (65533%N, rest)
        | None => (65533%N, rest)
        end
    | _ => (65533%N, rest)
    end
  else if ((56320 <=? n) && (n <? 57344))%N then (65533%N, rest)
  else (n, rest).

(** The text of a string literal after its opening quote; [acc] is what was
    read so far, reversed. *)
Fixpoint readString (fuel : nat) (s : string) (acc : string) : decoded (string * string) :=
  match fuel with
  | O => DecodeError errEnd
  | S fuel =>
      match s with
      | EmptyString => DecodeError errEnd
      | String c rest =>
          if Ascii.eqb c dquote then Decoded (String.rev acc, rest)
          else if Ascii.eqb c "\" then
            match rest with
            | EmptyString => DecodeError errEnd
            | String e rest1 =>
                match simpleEscape e with
                | Some x => readString fuel rest1 (String x acc)
                | None =>
                    if Ascii.eqb e "u" then
                      match hex4 rest1 with
                      | Some (n, rest2) =>
                          let '(cp, rest3) := unicodeEscape n rest2 in
                          readString fuel rest3 (String.rev_app (utf8 cp) acc)
                      | None => DecodeError (errAt rest1 "in \u hexadecimal character escape")
                      end
                    else DecodeError (errChar e "in string escape code")
                end
            end
          else if (N_of_ascii c <? 32)%N then DecodeError (errChar c "in string literal")
          else readString fuel rest (String c acc)
      end
  end.

(** The rest of [s] after the text [word], which finishes a literal. *)
Fixpoint readWord (word : string) (s : string) : decoded string :=
  match word with
  | EmptyString => Decoded s
  | String w word' =>
      match s with
      | String c rest =>
          if Ascii.eqb c w then readWord word' rest
          else DecodeError (errChar c "in literal")
      | EmptyString => DecodeError errEnd
      end
  end.

Fixpoint readValue (fuel : nat) (s : string) : decoded (value * string) :=
  match fuel with
  | O => DecodeError errEnd
  | S fuel =>
      match skipSpace s with
      | EmptyString => DecodeError errEnd
      | String c rest =>
          if Ascii.eqb c "{" then
            match skipSpace rest with
            | String "}" rest1 => Decoded (Object [], rest1)
            | _ => readMembers fuel rest []
            end
          else if Ascii.eqb c "[" then
            match skipSpace rest with
            | String "]" rest1 => Decoded (Array [], rest1)
            | _ => readElements fuel rest []
            end
          else if Ascii.eqb c dquote then
            '(str, rest1) ← readString (String.length rest) rest "";
            Decoded (Str str, rest1)
          else if Ascii.eqb c "t" then
            rest1 ← readWord "rue" rest; Decoded (Bool true, rest1)
          else if Ascii.eqb c "f" then
            rest1 ← readWord "alse" rest; Decoded (Bool false, rest1)
          else if Ascii.eqb c "n" then
            rest1 ← readWord "ull" rest; Decoded (Null, rest1)
          else if Ascii.eqb c "-" || isDigit c then
            '(lit, rest1) ← readNumber (String c rest);
            Decoded (Number lit, rest1)
          else DecodeError (errChar c "looking for beginning of value")
      end
  end
with readElements (fuel : nat) (s : string) (acc : list value) : decoded (value * string) :=
  match fuel with
  | O => DecodeError errEnd
  | S fuel =>
      '(v, rest) ← readValue fuel s;
      match skipSpace rest with
      | String c rest1 =>
          if Ascii.eqb c "," then readElements fuel rest1 (v :: acc)
          else if Ascii.eqb c "]" then Decoded (Array (reverse (v :: acc)), rest1)
          else DecodeError (errChar c "after array element")
      | EmptyString => DecodeError errEnd
      end
  end
with readMembers (fuel : nat) (s : string) (acc : list (string * value)) : decoded (value * string) :=
  match fuel with
  | O => DecodeError errEnd
  | S fuel =>
      match skipSpace s with
      | EmptyString => DecodeError errEnd
      | String q rest =>
          if Ascii.eqb q dquote then
            '(key, rest1) ← readString (String.length rest) rest "";
            match skipSpace rest1 with
            | String colon rest2 =>
                if Ascii.eqb colon ":" then
                  '(v, rest3) ← readValue fuel rest2;
                  match skipSpace rest3 with
                  | String c rest4 =>
                      if Ascii.eqb c "," then readMembers fuel rest4 ((key, v) :: acc)
                      else if Ascii.eqb c "}" then
                        Decoded (Object (reverse ((key, v) :: acc)), rest4)
                      else DecodeError (errChar c "after object key:value pair")
                  | EmptyString => DecodeError errEnd
                  end
                else DecodeError (errChar colon "after object key")
            | EmptyString => DecodeError errEnd
            end
          else DecodeError (errChar q "looking for beginning of object key string")
      end
  end.

(** The value a whole text denotes. *)
Definition parse (s : string) : decoded value :=
  '(v, rest) ← readValue (2 * String.length s + 2) s;
  match skipSpace rest with
  | EmptyString => Decoded v
  | String c _ => DecodeError (errChar c "after top-level value")
  end.

End Json.

(** ** Binding JSON values to the document structs *)

Module Bind.

Import Json.

Definition kindOf (v : value) : string :=
  match v with
  | Null => "null"
  | Bool _ => "bool"
  | Number _ => "number"
  | Str _ => "string"
  | Array _ => "array"
  | Object _ => "object"
  end.

Definition typeError (v : value) (goType : string) : error :=
  "json: cannot unmarshal " +:+ kindOf v +:+ " into Go value of type " +:+ goType.

Definition lower (c : ascii) : ascii :=
  let n := N_of_ascii c in
  if ((65 <=? n) && (n <=? 90))%N then ascii_of_N (n + 32) else c.

Fixpoint foldKey (s : string) : string :=
  match s with
  | EmptyString => EmptyString
  | String c rest => String (lower c) (foldKey rest)
  end.

Fixpoint asciiOnly (s : string) : bool :=
  match s with
  | EmptyString => true
  | String c rest => (N_of_ascii c <? 128)%N && asciiOnly rest
  end.

(** The members of a value bound to a struct, their keys folded to lower
    case. *)
Definition structMembers (goType : string) (v : value) : decoded (list (string * value)) :=
  match v with
  | Null => Decoded []
  | Object ms =>
      let keys := map (fun kv => foldKey (fst kv)) ms in
      if forallb asciiOnly keys && bool_decide (NoDup keys)
      then Decoded (map (fun kv => (foldKey (fst kv), snd kv)) ms)
      else DecodeError "object key repeated or not ASCII"
  | _ => DecodeError (typeError v goType)
  end.

(** The member bound to the field tagged [name]; [Null] when absent. *)
Fixpoint member (name : string) (ms : list (string * value)) : value :=
  match ms with
  | [] => Null
  | (k, v) :: rest => if String.eqb k (foldKey name) then v else member name rest
  end.

Definition asString (v : value) : decoded string :=
  match v with
  | Null => Decoded ""
  | Str s => Decoded s
  | _ => DecodeError (typeError v "string")
  end.

Definition asInt (v : value) : decoded Z :=
  match v with
  | Null => Decoded 0
  | Number lit =>
      match Atoi lit with
      | Some n => Decoded n
      | None => DecodeError ("json: cannot unmarshal number " +:+ lit +:+ " into Go value of type int")
      end
  | _ => DecodeError (typeError v "int")
  end.

Fixpoint mapDecoded {A B : Type} (f : A -> decoded B) (l : list A) : decoded (list B) :=
  match l with
  | [] => Decoded []
  | x :: rest => y ← f x; ys ← mapDecoded f rest; Decoded (y :: ys)
  end.

Definition asSlice {A : Type} (goType : string) (f : value -> decoded A) (v : value)
  : decoded (list A) :=
  match v with
  | Null => Decoded []
  | Array l => mapDecoded f l
  | _ => DecodeError (typeError v goType)
  end.

(** A [map[string]string]: a later member replaces an earlier one of the
    same key. *)
Fixpoint asStringMapGo (ms : list (string * value)) (acc : gmap string string)
  : decoded (gmap string string) :=
  match ms with
  | [] => Decoded acc
  | (k, v) :: rest => s ← asString v; asStringMapGo rest (<[k := s]> acc)
  end.

Definition asStringMap (v : value) : decoded (gmap string string) :=
  match v with
  | Null => Decoded ∅
  | Object ms => asStringMapGo ms ∅
  | _ => DecodeError (typeError v "map[string]string")
  end.

Definition asFieldValue (v : value) : decoded FieldValue :=
  ms ← structMembers "status.FieldValue" v;
  ty ← asString (member "type" ms);
  str ← asString (member "string" ms);
  n ← asInt (member "integer" ms);
  Decoded {| FieldValue_Type := ty; FieldValue_String := str; FieldValue_Integer := n |}.

Definition asFeedbackValue (v : value) : decoded FeedbackValue :=
  ms ← structMembers "status.FeedbackValue" v;
  name ← asString (member "name" ms);
  fv ← asFieldValue (member "fieldValue" ms);
  Decoded {| FeedbackValue_Name := name; FeedbackValue_FieldValue := fv |}.

Definition asResourceMeta (v : value) : decoded resourceMeta :=
  ms ← structMembers "struct" v;
  group ← asString (member "group" ms);
  kind ← asString (member "kind" ms);
  name ← asString (member "name" ms);
  resource ← asString (member "resource" ms);
  Decoded {| ResourceMeta_Group := group; ResourceMeta_Kind := kind;
             ResourceMeta_Name := name; ResourceMeta_Resource := resource |}.

Definition asManifest (v : value) : decoded manifest :=
  ms ← structMembers "struct" v;
  meta ← asResourceMeta (member "resourceMeta" ms);
  feedback ← structMembers "struct" (member "statusFeedback" ms);
  values ← asSlice "[]status.FeedbackValue" asFeedbackValue (member "values" feedback);
  Decoded {| manifest_ResourceMeta := meta; manifest_StatusFeedback_Values := values |}.

(** [status.resourceStatus.manifests] of a document. *)
Definition asManifests (doc : list (string * value)) : decoded (list manifest) :=
  status ← structMembers "struct" (member "status" doc);
  resourceStatus ← structMembers "struct" (member "resourceStatus" status);
  asSlice "[]struct" asManifest (member "manifests" resourceStatus).

Definition asSyncCondition (v : value) : decoded syncCondition :=
  ms ← structMembers "struct" v;
  type ← asString (member "type" ms);
  status ← asString (member "status" ms);
  ltt ← asString (member "lastTransitionTime" ms);
  Decoded {| syncCondition_Type := type; syncCondition_Status := status;
             syncCondition_LastTransitionTime := ltt |}.

Definition asCertCondition (v : value) : decoded certCondition :=
  ms ← structMembers "struct" v;
  type ← asString (member "type" ms);
  status ← asString (member "status" ms);
  Decoded {| certCondition_Type := type; certCondition_Status := status |}.

Definition unmarshalSync (jsonStr : string) : decoded syncDoc :=
  v ← parse jsonStr;
  doc ← structMembers "struct" v;
  metadata ← structMembers "struct" (member "metadata" doc);
  name ← asString (member "name" metadata);
  status ← structMembers "struct" (member "status" doc);
  conditions ← asSlice "[]struct" asSyncCondition (member "conditions" status);
  Decoded {| syncDoc_Metadata_Name := name; syncDoc_Status_Conditions := conditions |}.

Definition unmarshalMain (jsonStr : string) : decoded mainDoc :=
  v ← parse jsonStr;
  doc ← structMembers "struct" v;
  metadata ← structMembers "struct" (member "metadata" doc);
  labels ← asStringMap (member "labels" metadata);
  manifests ← asManifests doc;
  Decoded {| mainDoc_Metadata_Labels := labels; mainDoc_Manifests := manifests |}.

Definition unmarshalPool (jsonStr : string) : decoded poolDoc :=
  v ← parse jsonStr;
  doc ← structMembers "struct" v;
  manifests ← asManifests doc;
  Decoded {| poolDoc_Manifests := manifests |}.

Definition unmarshalCert (jsonStr : string) : decoded certDoc :=
  v ← parse jsonStr;
  doc ← structMembers "struct" v;
  spec ← structMembers "struct" (member "spec" doc);
  dnsNames ← asSlice "[]string" asString (member "dnsNames" spec);
  status ← structMembers "struct" (member "status" doc);
  conditions ← asSlice "[]struct" asCertCondition (member "conditions" status);
  notAfter ← asString (member "notAfter" status);
  renewalTime ← asString (member "renewalTime" status);
  Decoded {| certDoc_Spec_DNSNames := dnsNames;
             certDoc_Status_Conditions := conditions;
             certDoc_Status_NotAfter := notAfter;
             certDoc_Status_RenewalTime := renewalTime |}.

End Bind.

(** ** A reader for RFC 3339 timestamps

    The canonical form [YYYY-MM-DDThh:mm:ss[.fraction](Z|+hh:mm|-hh:mm)],
    read to the instant it denotes. *)

Module Rfc3339.

Definition num2 (s : string) : option (Z * string) :=
  match s with
  | String a (String b rest) =>
      x ← digit_val a; y ← digit_val b; Some (x * 10 + y, rest)
  | _ => None
  end.

Definition num4 (s : string) : option (Z * string) :=
  '(hi, rest) ← num2 s; '(lo, rest') ← num2 rest; Some (hi * 100 + lo, rest').

Definition expect (c : ascii) (s : string) : option string :=
  match s with
  | String d rest => if Ascii.eqb c d then Some rest else None
  | EmptyString => None
  end.

Definition isLeap (y : Z) : bool :=
  ((y mod 4 =? 0) && negb (y mod 100 =? 0)) || (y mod 400 =? 0).

Definition daysIn (y m : Z) : Z :=
  if m =? 2 then (if isLeap y then 29 else 28)
  else if (m =? 4) || (m =? 6) || (m =? 9) || (m =? 11) then 30
  else 31.

(** Days from January 1 of year 1 to the given date of the proleptic
    Gregorian calendar. *)
Definition daysFromCivil (y m d : Z) : Z :=
  let y' := if m <=? 2 then y - 1 else y in
  let era := y' / 400 in
  let yoe := y' - era * 400 in
  let doy := (153 * (if 2 <? m then m - 3 else m + 9) + 2) / 5 + d - 1 in
  let doe := yoe * 365 + yoe / 4 - yoe / 100 + doy in
  era * 146097 + doe - 306.

(** The nanoseconds a run of fraction digits stands for (nine digits are
    kept). *)
Fixpoint fractionNanos (digits : nat) (s : string) : Z :=
  match digits with
  | O => 0
  | S digits' =>
      match s with
      | String c rest =>
          default 0 (digit_val c) * 10 ^ Z.of_nat digits' + fractionNanos digits' rest
      | EmptyString => 0
      end
  end.

Definition fraction (s : string) : option (Z * string) :=
  match s with
  | String "." rest =>
      let '(ds, rest') := Json.spanDigits rest in
      if String.eqb ds "" then None else Some (fractionNanos 9 ds, rest')
  | _ => Some (0, s)
  end.

(** The offset from UTC in seconds; nothing may follow the zone. *)
Definition zone (s : string) : option Z :=
  match s with
  | String "Z" EmptyString => Some 0
  | String sign rest =>
      if Ascii.eqb sign "+" || Ascii.eqb sign "-" then
        '(hh, rest1) ← num2 rest;
        rest2 ← expect ":" rest1;
        '(mm, rest3) ← num2 rest2;
        if String.eqb rest3 "" && (hh <? 24) && (mm <? 60) then
          Some ((if Ascii.eqb sign "-" then -1 else 1) * (hh * 3600 + mm * 60))
        else None
      else None
  | EmptyString => None
  end.

Definition parse (s : string) : option Time :=
  '(year, s) ← num4 s;
  s ← expect "-" s;
  '(month, s) ← num2 s;
  s ← expect "-" s;
  '(day, s) ← num2 s;
  s ← expect "T" s;
  '(hour, s) ← num2 s;
  s ← expect ":" s;
  '(min, s) ← num2 s;
  s ← expect ":" s;
  '(sec, s) ← num2 s;
  '(nanos, s) ← fraction s;
  offset ← zone s;
  if (1 <=? month) && (month <=? 12) && (1 <=? day) && (day <=? daysIn year month)
     && (hour <? 24) && (min <? 60) && (sec <? 60)
  then Some (((daysFromCivil year month day * 86400 + hour * 3600 + min * 60 + sec
               - offset) * 1000000000 + nanos))
  else None.

(** [time.Date(y, m, d, hh, mm, ss, 0, time.UTC)] *)
Definition Date_UTC (y m d hh mm ss : Z) : Time :=
  (daysFromCivil y m d * 86400 + hh * 3600 + mm * 60 + ss) * 1000000000.

End Rfc3339.

(** The parsers over these readers. *)
Definition textRuntime : Runtime := {|
  Unmarshal_sync := Bind.unmarshalSync;
  Unmarshal_main := Bind.unmarshalMain;
  Unmarshal_pool := Bind.unmarshalPool;
  Unmarshal_cert := Bind.unmarshalCert;
  Parse_RFC3339 := Rfc3339.parse |}.

(** JSON text written with apostrophes for its double quotes. *)
Fixpoint json (s : string) : string :=
  match s with
  | EmptyString => EmptyString
  | String c rest => String (if Ascii.eqb c "'" then Json.dquote else c) (json rest)
  end.

(** ** Vocabulary of the statements *)

(** The value of [f] at the last element of [l] where it has one. *)
Fixpoint lastSome {A B : Type} (f : A -> option B) (l : list A) : option B :=
  match l with
  | [] => None
  | x :: rest =>
      match lastSome f rest with
      | Some y => Some y
      | None => f x
      end
  end.

(** The value of [f] at the first element of [l] where it has one. *)
Fixpoint firstSome {A B : Type} (f : A -> option B) (l : list A) : option B :=
  match l with
  | [] => None
  | x :: rest =>
      match f x with
      | Some y => Some y
      | None => firstSome f rest
      end
  end.

(** The elements of [l], each at the place of its first appearance. *)
Fixpoint firstAppearances (l : list string) : list string :=
  match l with
  | [] => []
  | x :: rest => x :: filter (fun y => y <> x) (firstAppearances rest)
  end.

(** The four condition fields and the excluded prefix, as lists. *)
Definition fieldNames : list string := ["Status"; "Reason"; "Message"; "LastTransitionTime"].
Definition excludedPrefixes : list string := ["Version"].

(** How the naming convention reads a feedback name: the condition type and
    the field, when the text after the first hyphen is a condition field and
    the text before it is not excluded. *)
Definition conditionKey (name : string) : option (string * string) :=
  match cut_hyphen name with
  | Some (prefix, suffix) =>
      if bool_decide (suffix ∈ fieldNames) && negb (bool_decide (prefix ∈ excludedPrefixes))
      then Some (prefix, suffix)
      else None
  | None => None
  end.

(** The condition type an entry belongs to, if any. *)
Definition conditionTypeOf (fv : FeedbackValue) : option string :=
  fst <$> conditionKey (FeedbackValue_Name fv).

(** The value an entry gives to the field [field] of condition [condType]. *)
Definition fieldOf (condType field : string) (fv : FeedbackValue) : option string :=
  match conditionKey (FeedbackValue_Name fv) with
  | Some (p, f) =>
      if String.eqb p condType && String.eqb f field then Some (feedbackVal fv) else None
  | None => None
  end.

(** The value an entry gives to the extra [name]. *)
Definition extraOf (name : string) (fv : FeedbackValue) : option string :=
  match conditionKey (FeedbackValue_Name fv) with
  | Some _ => None
  | None => if String.eqb (FeedbackValue_Name fv) name then Some (feedbackVal fv) else None
  end.

(** The condition of type [condType] whose fields hold the last value the
    sequence gives them. *)
Definition lastCondition (values : list FeedbackValue) (condType : string) : Condition :=
  {| Condition_Type := condType;
     Condition_Status := default "" (lastSome (fieldOf condType "Status") values);
     Condition_Reason := default "" (lastSome (fieldOf condType "Reason") values);
     Condition_Message := default "" (lastSome (fieldOf condType "Message") values);
     Condition_LastTransitionTime :=
       default "" (lastSome (fieldOf condType "LastTransitionTime") values) |}.

(** What the loop of [parseFeedbackValues] has built after [values]. *)
Definition flattenSpec (values : list FeedbackValue) (st : flattenState) : Prop :=
  conditionOrder st = firstAppearances (omap conditionTypeOf values) /\
  (forall p, conditionMap st !! p =
             if decide (p ∈ conditionOrder st) then Some (lastCondition values p) else None) /\
  (forall k, extras st !! k = lastSome (extraOf k) values).

(** The entry's name has a condition field after its first hyphen. *)
Definition hasConditionField (fv : FeedbackValue) : bool :=
  match cut_hyphen (FeedbackValue_Name fv) with
  | Some (_, suffix) => bool_decide (suffix ∈ fieldNames)
  | None => false
  end.


Definition certStatusOf (type : string) (c : certCondition) : option bool :=
  if String.eqb (certCondition_Type c) type
  then Some (String.eqb (certCondition_Status c) "True")
  else None.

Definition kindIs (kind : string) (m : manifest) : bool :=
  String.eqb (ResourceMeta_Kind (manifest_ResourceMeta m)) kind.

(** The extra [key] of a HostedCluster entry. *)
Definition hostedExtra (key : string) (m : manifest) : option string :=
  if kindIs "HostedCluster" m
  then snd (parseFeedbackValues (manifest_StatusFeedback_Values m)) !! key
  else None.

(** The non-empty extra [key] of a HostedCluster entry. *)
Definition hostedNonEmptyExtra (key : string) (m : manifest) : option string :=
  match hostedExtra key m with
  | Some v => if String.eqb v "" then None else Some v
  | None => None
  end.

(** The value of an entry called [name]. *)
Definition namedValue (name : string) (fv : FeedbackValue) : option string :=
  if String.eqb (FeedbackValue_Name fv) name then Some (feedbackVal fv) else None.

(** What [parseManifestWorkNodePools] reports for a NodePool entry: the
    replica count is read off the last value called Replicas, the version
    is the last value called Version. *)
Definition nodePoolSpec (m : manifest) : NodePoolStatus :=
  let values := manifest_StatusFeedback_Values m in
  {| NodePool_Name := ResourceMeta_Name (manifest_ResourceMeta m);
     NodePool_Replicas :=
       match lastSome (namedValue "Replicas") values with
       | Some v => match Atoi v with Some n => n | None => 0 end
       | None => 0
       end;
     NodePool_Version := default "" (lastSome (namedValue "Version") values);
     NodePool_Conditions := fst (parseFeedbackValues values) |}.

(** The conditions of a HostedCluster entry. *)
Definition hostedConditions (m : manifest) : option (list Condition) :=
  if kindIs "HostedCluster" m
  then Some (fst (parseFeedbackValues (manifest_StatusFeedback_Values m)))
  else None.

(** The first entry of a visiting order whose key has the certificate
    prefix. *)
Definition firstCertificate (order : list (string * string)) : option (string * string) :=
  head (filter (fun kv => HasPrefix (fst kv) "certificate-" = true) order).

(** The readiness of the ingress certificate in a result of
    [parseLiveResources]. *)
Definition ingressReady (r : option HCPStatus * option error) : option bool :=
  match fst r with
  | Some status =>
      match IngressCertificate status with
      | Some cert => Cert_Ready cert
      | None => None
      end
  | None => None
  end.

Section RuntimeVocabulary.

Context {rt : Runtime}.

(** The instant a timestamp text denotes, when the parsers read it: the text
    is not empty and [time.Parse] accepts it. *)
Definition timeOf (s : string) : option Time :=
  if String.eqb s "" then None else Parse_RFC3339 s.

(** A result [parseLiveResources] may return on the given arguments: the
    one it computes under some visiting orders of its two [range] loops. *)
Definition mayReturn (resources : gmap string string) (clusterID : string)
    (r : option HCPStatus * option error) : Prop :=
  exists order1 order2,
    rangeOrder resources order1 /\ rangeOrder resources order2 /\
    parseLiveResources order1 order2 resources clusterID = r.

End RuntimeVocabulary.

(** ** Documents of the test-suite and of the examples *)

Module Docs.

(** [TestParseManifestWorkSyncStatus] *)
Definition syncStatus : string := json
"{
  'metadata': {'name': 'test-cluster-id'},
  'status': {
    'conditions': [
      {'type': 'Applied', 'status': 'True', 'lastTransitionTime': '2026-02-07T12:00:00Z'},
      {'type': 'Available', 'status': 'True', 'lastTransitionTime': '2026-02-07T12:05:00Z'}
    ]
  }
}".



(** [TestParseMainManifestWorkWithCertificate] *)
Definition mainWithCertificate : string := json
"{
  'metadata': {
    'name': 'test-cluster-id',
    'labels': {'api.openshift.com/management-cluster': 'hs-mc-test123'}
  },
  'status': {
    'conditions': [
      {'type': 'Applied', 'status': 'True'},
      {'type': 'Available', 'status': 'True'}
    ],
    'resourceStatus': {
      'manifests': [
        {
          'resourceMeta': {'kind': 'HostedCluster', 'name': 'test-cluster'},
          'statusFeedback': {
            'values': [
              {'name': 'Available-Status', 'fieldValue': {'type': 'String', 'string': 'True'}},
              {'name': 'Version-Current', 'fieldValue': {'type': 'String', 'string': '4.21.0'}}
            ]
          }
        },
        {
          'resourceMeta': {'kind': 'Certificate', 'name': 'cluster-api-cert'},
          'statusFeedback': {
            'values': [
              {'name': 'Ready-Status', 'fieldValue': {'type': 'String', 'string': 'True'}},
              {'name': 'Ready-Reason', 'fieldValue': {'type': 'String', 'string': 'Ready'}},
              {'name': 'Ready-LastTransitionTime', 'fieldValue': {'type': 'String', 'string': '2026-05-07T12:00:00Z'}}
            ]
          }
        }
      ]
    }
  }
}".

(** Two entries of kind HostedCluster; the second has one condition, no
    current version and an empty list of available updates. *)
Definition twoHostedClusters : string := json
"{
  'status': {
    'resourceStatus': {
      'manifests': [
        {
          'resourceMeta': {'kind': 'HostedCluster', 'name': 'first'},
          'statusFeedback': {
            'values': [
              {'name': 'Available-Status', 'fieldValue': {'type': 'String', 'string': 'True'}},
              {'name': 'Degraded-Status', 'fieldValue': {'type': 'String', 'string': 'False'}},
              {'name': 'Version-Current', 'fieldValue': {'type': 'String', 'string': '4.21.0'}},
              {'name': 'Version-Desired', 'fieldValue': {'type': 'String', 'string': '4.21.0'}},
              {'name': 'Version-AvailableUpdates', 'fieldValue': {'type': 'String', 'string': '4.21.1,4.21.2'}}
            ]
          }
        },
        {
          'resourceMeta': {'kind': 'HostedCluster', 'name': 'second'},
          'statusFeedback': {
            'values': [
              {'name': 'Progressing-Status', 'fieldValue': {'type': 'String', 'string': 'True'}},
              {'name': 'Version-Desired', 'fieldValue': {'type': 'String', 'string': '4.22.0'}},
              {'name': 'Version-AvailableUpdates', 'fieldValue': {'type': 'String', 'string': ''}}
            ]
          }
        }
      ]
    }
  }
}".

(** [TestParseNodePoolFeedback], with a second pool whose Replicas value is
    a string that is no number. *)
Definition nodePools : string := json
"{
  'metadata': {'name': 'test-cluster-id-workers'},
  'status': {
    'resourceStatus': {
      'manifests': [
        {
          'resourceMeta': {'kind': 'NodePool', 'name': 'test-workers'},
          'statusFeedback': {
            'values': [
              {'name': 'Ready-Status', 'fieldValue': {'type': 'String', 'string': 'True'}},
              {'name': 'Replicas', 'fieldValue': {'type': 'Integer', 'integer': 3}},
              {'name': 'Version', 'fieldValue': {'type': 'String', 'string': '4.21.0'}}
            ]
          }
        },
        {
          'resourceMeta': {'kind': 'NodePool', 'name': 'more-workers'},
          'statusFeedback': {
            'values': [
              {'name': 'Replicas', 'fieldValue': {'type': 'String', 'string': 'three'}}
            ]
          }
        }
      ]
    }
  }
}".

(** [TestParseCertificate] *)
Definition certificate : string := json
"{
  'spec': {
    'dnsNames': [
      '*.apps.rosa.test-cluster.ake1.s3.devshift.org',
      '*.test-id.rosa.test-cluster.ake1.s3.devshift.org'
    ]
  },
  'status': {
    'conditions': [
      {'type': 'Ready', 'status': 'True'}
    ],
    'notAfter': '2026-05-07T12:00:00Z',
    'renewalTime': '2026-04-07T12:00:00Z'
  }
}".

(** [TestParseCertificateNotReady] *)
Definition certificateNotReady : string := json
"{
  'spec': {'dnsNames': ['*.example.com']},
  'status': {
    'conditions': [
      {'type': 'Ready', 'status': 'False'}
    ]
  }
}".

(** [TestParseCertificateMalformed] *)
Definition malformed : string := "{not valid json".

(** The mapping of [TestParseLiveResources]. *)
Definition liveMain : string := json
"{
  'metadata': {
    'name': 'testid',
    'labels': {'api.openshift.com/management-cluster': 'hs-mc-abc'}
  },
  'status': {
    'conditions': [
      {'type': 'Applied', 'status': 'True', 'lastTransitionTime': '2026-02-07T10:00:00Z'},
      {'type': 'Available', 'status': 'True', 'lastTransitionTime': '2026-02-07T10:05:00Z'}
    ],
    'resourceStatus': {
      'manifests': [
        {
          'resourceMeta': {'kind': 'HostedCluster', 'name': 'my-cluster'},
          'statusFeedback': {
            'values': [
              {'name': 'Available-Status', 'fieldValue': {'type': 'String', 'string': 'True'}},
              {'name': 'Version-Current', 'fieldValue': {'type': 'String', 'string': '4.21.0'}},
              {'name': 'Version-Desired', 'fieldValue': {'type': 'String', 'string': '4.21.0'}},
              {'name': 'Version-Status', 'fieldValue': {'type': 'String', 'string': 'Completed'}}
            ]
          }
        }
      ]
    }
  }
}".

Definition liveWorkers : string := json
"{
  'metadata': {'name': 'testid-workers'},
  'status': {
    'conditions': [
      {'type': 'Applied', 'status': 'True', 'lastTransitionTime': '2026-02-07T10:10:00Z'},
      {'type': 'Available', 'status': 'True', 'lastTransitionTime': '2026-02-07T10:15:00Z'}
    ],
    'resourceStatus': {
      'manifests': [
        {
          'resourceMeta': {'kind': 'NodePool', 'name': 'workers'},
          'statusFeedback': {
            'values': [
              {'name': 'Ready-Status', 'fieldValue': {'type': 'String', 'string': 'True'}},
              {'name': 'Replicas', 'fieldValue': {'type': 'Integer', 'integer': 2}},
              {'name': 'Version', 'fieldValue': {'type': 'String', 'string': '4.21.0'}}
            ]
          }
        }
      ]
    }
  }
}".

Definition liveCertificate : string := json
"{
  'spec': {'dnsNames': ['*.apps.example.com']},
  'status': {
    'conditions': [{'type': 'Ready', 'status': 'True'}],
    'notAfter': '2026-05-07T12:00:00Z',
    'renewalTime': '2026-04-07T12:00:00Z'
  }
}".

Definition liveEntries : list (string * string) :=
  [ ("manifest_work-testid", liveMain);
    ("manifest_work-testid-workers", liveWorkers);
    ("certificate-testid", liveCertificate) ].

Definition liveResources : gmap string string := list_to_map liveEntries.

(** A mapping with two certificate documents, and the two orders in which
    [range] may visit it. *)
Definition twoCertificatesAB : list (string * string) :=
  [ ("certificate-a", certificate); ("certificate-b", certificateNotReady) ].
Definition twoCertificatesBA : list (string * string) :=
  [ ("certificate-b", certificateNotReady); ("certificate-a", certificate) ].
Definition twoCertificates : gmap string string := list_to_map twoCertificatesAB.



End Docs.

(** ** More of the code: library calls *)

(** [strings.Split(s, sep)] for a separator of one byte. *)
Fixpoint Split_byte_go (sep : ascii) (cur : string) (s : string) : list string :=
  match s with
  | EmptyString => [String.rev cur]
  | String c rest =>
      if Ascii.eqb c sep then String.rev cur :: Split_byte_go sep EmptyString rest
      else Split_byte_go sep (String c cur) rest
  end.
Definition Split_byte (sep : ascii) (s : string) : list string :=
  Split_byte_go sep EmptyString s.

(** [strings.Join(elems, sep)] *)
Fixpoint Join (elems : list string) (sep : string) : string :=
  match elems with
  | [] => ""
  | x :: rest =>
      match rest with
      | [] => x
      | _ :: _ => x +:+ sep +:+ Join rest sep
      end
  end.

(** [strings.Count(s, string(c))]: how often the byte occurs. *)
Fixpoint countByte (c : ascii) (s : string) : nat :=
  match s with
  | EmptyString => O
  | String d rest => (if Ascii.eqb d c then 1 else 0)%nat + countByte c rest
  end.

(** ** More of the code: [GetHiveShard] and [GetHiveCluster] ([pkg/utils/ocm.go]) *)

Section Hive.

(** The request [ClustersMgmt().V1().Clusters().Cluster(cluster)
    .ProvisionShard().Get().Send()], sent on the connection that
    [CreateConnection] built (without a connection [CreateConnection] ends
    the process, and nothing of what follows runs): the text
    [Body().HiveConfig().Server()] of its response when there is one, and
    its error. *)
Context (provisionShardServer : string -> option string * option error).

Definition GetHiveShard (cluster : string) : string * option error :=
  let '(shardPath, err) := provisionShardServer cluster in
  let shard :=
    match shardPath, err with
    | Some server, None => server
    | _, _ => ""
    end in
  if String.eqb shard "" then
    ("", Some ("Unable to retrieve shard for cluster " +:+ cluster))
  else (shard, None).

Definition GetHiveCluster (cluster : string) : string * option error :=
  match GetHiveShard cluster with
  | (_, Some err) => ("", Some err)
  | (shard, None) =>
      let splitted := Split_byte "." shard in
      if negb (Nat.eqb (length splitted) 6) then
        ("", Some ("Unable to parse the hive shard " +:+ shard +:+
                   ". Should be in the format https://api.<hive_cluster>.byo5.p1.openshiftapps.com:6443"))
      else (nth 1 splitted "", None)
  end.

End Hive.

(** ** More of the code: [getNodeAwsInstanceData] ([cmd/cluster/resizenode.go]) *)

(** The part of [ec2.DescribeInstancesOutput] the function reads; a pointer
    is an [option]. *)
Record ec2Tag := { Tag_Key : option string; Tag_Value : option string }.

Record ec2Instance := {
  Instance_InstanceId : option string;
  Instance_Tags : list (option ec2Tag) }.

Record ec2Reservation := { Reservation_Instances : list (option ec2Instance) }.

Record ec2DescribeInstancesOutput := {
  Output_Reservations : list (option ec2Reservation) }.

(** How a call ends: it returns, [log.Fatalln] ends the process with a
    message, or the runtime panics (an index out of range, a nil
    dereference). *)
Inductive outcome (A : Type) : Type :=
  | Returns (a : A)
  | Fatal (message : string)
  | Panics.
Arguments Returns {A} a.
Arguments Fatal {A} message.
Arguments Panics {A}.

(** The loop over the tags: [machineName] after it, [None] when it
    panicked. *)
Fixpoint tagLoop (tags : list (option ec2Tag)) (machineName : string) : option string :=
  match tags with
  | [] => Some machineName
  | None :: _ => None
  | Some t :: rest =>
      match Tag_Key t with
      | None => None
      | Some key =>
          if String.eqb key "Name" then
            match Tag_Value t with
            | None => None
            | Some value => tagLoop rest value
            end
          else tagLoop rest machineName
      end
  end.

Section NodeData.

(** The call [DescribeInstances(params)] on the AWS client, where [params]
    filters on the private DNS name [node]. *)
Context (DescribeInstances : string -> option ec2DescribeInstancesOutput * option error).

(** The result and the line printed on standard output. *)
Definition getNodeAwsInstanceData (node : string) : outcome (string * string) * string :=
  match DescribeInstances node with
  | (_, Some err) => (Fatal err, "")
  | (None, None) => (Panics, "")
  | (Some ret, None) =>
      match Output_Reservations ret with
      | Some reservation :: _ =>
          match Reservation_Instances reservation with
          | Some instance :: _ =>
              match Instance_InstanceId instance with
              | Some awsInstanceID =>
                  match tagLoop (Instance_Tags instance) "" with
                  | Some machineName =>
                      if String.eqb machineName "" then
                        (Fatal "Could not retrieve node machine name.", "")
                      else
                        (Returns (machineName, awsInstanceID),
                         "Node " +:+ node +:+ " found as AWS internal InstanceId " +:+
                         awsInstanceID +:+ " with machine name " +:+ machineName +:+
                         String "010" "")
                  | None => (Panics, "")
                  end
              | None => (Panics, "")
              end
          | _ => (Panics, "")
          end
      | _ => (Panics, "")
      end
  end.

End NodeData.

(** ** More vocabulary *)

(** The keys of the mapping with the manifest_work prefix, ascending. *)
Definition manifestWorkKeysOf (resources : gmap string string) : list string :=
  sort_Strings (collectManifestWorkKeys (map_to_list resources)).

(** Whether the aggregator looks at a key at all. *)
Definition relevantKey (key : string) : bool :=
  HasPrefix key "manifest_work-" || HasPrefix key "certificate-".

(** The mapping without the documents the aggregator does not look at. *)
Definition relevantResources (resources : gmap string string) : gmap string string :=
  filter (fun kv => relevantKey (fst kv) = true) resources.

(** The entry itself when it is called [name]. *)
Definition entryNamed (name : string) (fv : FeedbackValue) : option FeedbackValue :=
  if String.eqb (FeedbackValue_Name fv) name then Some fv else None.

(** The value a tag gives to the machine name: that of a tag whose key is
    Name. *)
Definition nameTagValue (tag : option ec2Tag) : option string :=
  match tag with
  | Some t =>
      match Tag_Key t with
      | Some key => if String.eqb key "Name" then Tag_Value t else None
      | None => None
      end
  | None => None
  end.

(** A manifest entry the main parser reads: of kind HostedCluster or
    Certificate. *)
Definition mainKind (m : manifest) : bool :=
  kindIs "HostedCluster" m || kindIs "Certificate" m.

(** A tag the loop of [getNodeAwsInstanceData] reads without a nil
    dereference: the tag and its key are there, and so is the value of a
    tag with the key Name. *)
Definition readableTag (tag : option ec2Tag) : bool :=
  match tag with
  | Some t =>
      match Tag_Key t with
      | Some key => if String.eqb key "Name" then bool_decide (is_Some (Tag_Value t)) else true
      | None => false
      end
  | None => false
  end.

(** The two errors of [GetHiveCluster]. *)
Definition shardNotRetrieved (cluster : string) : error :=
  "Unable to retrieve shard for cluster " +:+ cluster.

Definition shardNotParsed (shard : string) : error :=
  "Unable to parse the hive shard " +:+ shard +:+
  ". Should be in the format https://api.<hive_cluster>.byo5.p1.openshiftapps.com:6443".

(** ** More documents for the examples *)

Module MoreDocs.

(** The two HostedCluster entries of [Docs.twoHostedClusters], in a
    document that also has sync conditions, a label the parser does not
    read, and an entry of another kind between them. *)
Definition twoHostedClustersAndMore : string := json
"{
  'metadata': {'name': 'other', 'labels': {'team': 'sre'}},
  'status': {
    'conditions': [
      {'type': 'Applied', 'status': 'True', 'lastTransitionTime': '2026-02-07T12:00:00Z'}
    ],
    'resourceStatus': {
      'manifests': [
        {
          'resourceMeta': {'kind': 'HostedCluster', 'name': 'first'},
          'statusFeedback': {
            'values': [
              {'name': 'Available-Status', 'fieldValue': {'type': 'String', 'string': 'True'}},
              {'name': 'Degraded-Status', 'fieldValue': {'type': 'String', 'string': 'False'}},
              {'name': 'Version-Current', 'fieldValue': {'type': 'String', 'string': '4.21.0'}},
              {'name': 'Version-Desired', 'fieldValue': {'type': 'String', 'string': '4.21.0'}},
              {'name': 'Version-AvailableUpdates', 'fieldValue': {'type': 'String', 'string': '4.21.1,4.21.2'}}
            ]
          }
        },
        {
          'resourceMeta': {'kind': 'Secret', 'name': 'pull-secret'},
          'statusFeedback': {
            'values': [
              {'name': 'Version-Current', 'fieldValue': {'type': 'String', 'string': '9.9.9'}},
              {'name': 'Ready-Status', 'fieldValue': {'type': 'String', 'string': 'True'}}
            ]
          }
        },
        {
          'resourceMeta': {'kind': 'HostedCluster', 'name': 'second'},
          'statusFeedback': {
            'values': [
              {'name': 'Progressing-Status', 'fieldValue': {'type': 'String', 'string': 'True'}},
              {'name': 'Version-Desired', 'fieldValue': {'type': 'String', 'string': '4.22.0'}},
              {'name': 'Version-AvailableUpdates', 'fieldValue': {'type': 'String', 'string': ''}}
            ]
          }
        }
      ]
    }
  }
}".

(** A mapping with three manifest works, of which the two with the
    greater keys do not decode, in an order that starts with the
    greatest. *)
Definition twoBadManifestWorksEntries : list (string * string) :=
  [ ("manifest_work-c", Docs.malformed);
    ("manifest_work-b", Docs.malformed);
    ("manifest_work-a", Docs.syncStatus) ].
Definition twoBadManifestWorks : gmap string string :=
  list_to_map twoBadManifestWorksEntries.

(** A document whose sync status parses and whose manifest entries do
    not bind: the main parser and the node-pool parser refuse it. *)
Definition manifestsNotAList : string := json
"{
  'metadata': {'name': 'x'},
  'status': {'resourceStatus': {'manifests': 5}}
}".

(** A mapping whose main document has such manifest entries, and a
    certificate that does not decode. *)
Definition badMainEntries : list (string * string) :=
  [ ("certificate-x", Docs.malformed);
    ("manifest_work-x", manifestsNotAList);
    ("manifest_work-x-workers", Docs.nodePools) ].
Definition badMain : gmap string string := list_to_map badMainEntries.

(** A mapping without a main document, with two worker documents whose
    node pools do not parse. *)
Definition badNodePoolsEntries : list (string * string) :=
  [ ("manifest_work-x-c", manifestsNotAList);
    ("manifest_work-x-b", manifestsNotAList);
    ("manifest_work-x-a", Docs.nodePools) ].
Definition badNodePools : gmap string string := list_to_map badNodePoolsEntries.

(** A provision shard in the documented format. *)
Definition hiveShard : string := "https://api.hivep04ew2.byo5.p1.openshiftapps.com:6443".

(** The instance of a node with two Name tags. *)
Definition taggedInstance : ec2DescribeInstancesOutput :=
  {| Output_Reservations :=
       [ Some {| Reservation_Instances :=
                   [ Some {| Instance_InstanceId := Some "i-0123456789abcdef0";
                             Instance_Tags :=
                               [ Some {| Tag_Key := Some "Name";
                                         Tag_Value := Some "cluster-master-0" |};
                                 Some {| Tag_Key := Some "red-hat-managed";
                                         Tag_Value := None |};
                                 Some {| Tag_Key := Some "Name";
                                         Tag_Value := Some "cluster-master-1" |} ] |} ] |} ] |}.

End MoreDocs.

(** * Properties *)
(** ** Folding lemmas *)

Section Folds.

Context {A B : Type}.

Lemma lastSome_app (f : A -> option B) (l1 l2 : list A) :
  lastSome f (l1 ++ l2) =
  match lastSome f l2 with Some y => Some y | None => lastSome f l1 end.
Proof.
  induction l1 as [|x l1 IH]; simpl.
  - by destruct (lastSome f l2).
  - rewrite IH. by destruct (lastSome f l2).
Qed.

Lemma lastSome_snoc (f : A -> option B) (l : list A) (x : A) :
  lastSome f (l ++ [x]) =
  match f x with Some y => Some y | None => lastSome f l end.
Proof. rewrite lastSome_app. simpl. by destruct (f x). Qed.

Lemma lastSome_None (f : A -> option B) (l : list A) :
  lastSome f l = None <-> forall x, x ∈ l -> f x = None.
Proof.
  induction l as [|x l IH]; simpl.
  - split; [intros _ y Hy; by apply elem_of_nil in Hy | done].
  - destruct (lastSome f l) as [y|] eqn:E.
    + split; [done|]. intros H.
      assert (Some y = None) as Hbad; [|done].
      apply IH. intros z Hz. apply H. by right.
    + split.
      * intros Hx z Hz. apply elem_of_cons in Hz as [->|Hz]; [done|].
        by apply IH.
      * intros H. apply H. by left.
Qed.

Lemma lastSome_Some_elem (f : A -> option B) (l : list A) (y : B) :
  lastSome f l = Some y -> exists x, x ∈ l /\ f x = Some y.
Proof.
  induction l as [|x l IH]; simpl; [done|].
  destruct (lastSome f l) as [z|] eqn:E.
  - intros [= ->]. destruct IH as (x' & ? & ?); [done|].
    exists x'. split; [by right|done].
  - intros Hx. exists x. split; [by left|done].
Qed.

End Folds.

Example firstAppearances_example :
  firstAppearances ["b"; "a"; "b"; "c"; "a"] = ["b"; "a"; "c"].
Proof. reflexivity. Qed.

Lemma firstAppearances_elem (l : list string) (x : string) :
  x ∈ firstAppearances l <-> x ∈ l.
Proof.
  induction l as [|y l IH]; simpl; [done|].
  rewrite !elem_of_cons, list_elem_of_filter, IH.
  destruct (decide (x = y)); tauto.
Qed.

Lemma firstAppearances_NoDup (l : list string) : NoDup (firstAppearances l).
Proof.
  induction l as [|y l IH]; simpl; [constructor|].
  constructor.
  - rewrite list_elem_of_filter. tauto.
  - by apply NoDup_filter.
Qed.

Lemma firstAppearances_snoc (l : list string) (x : string) :
  firstAppearances (l ++ [x]) =
  if decide (x ∈ l) then firstAppearances l else (firstAppearances l ++ [x])%list.
Proof.
  induction l as [|y l IH]; simpl; [done|].
  rewrite IH. clear IH.
  destruct (decide (x ∈ l)) as [Hin|Hnin];
    destruct (decide (x ∈ y :: l)) as [Hin'|Hnin']; try done.
  - exfalso. apply Hnin'. by right.
  - apply elem_of_cons in Hin' as [->|?]; [|done].
    rewrite filter_app, filter_cons_False, filter_nil by tauto.
    by rewrite app_nil_r.
  - rewrite filter_app, filter_cons_True, filter_nil; [done|].
    intros ->. apply Hnin'. by left.
Qed.

(** ** The flattener *)

Lemma conditionFields_spec (field : string) :
  index_bool conditionFields field = bool_decide (field ∈ fieldNames).
Proof.
  unfold index_bool, conditionFields, fieldNames.
  rewrite !lookup_insert, lookup_empty.
  destruct (decide ("Status" = field)) as [<-|H1]; [by vm_compute|].
  destruct (decide ("Reason" = field)) as [<-|H2]; [by vm_compute|].
  destruct (decide ("Message" = field)) as [<-|H3]; [by vm_compute|].
  destruct (decide ("LastTransitionTime" = field)) as [<-|H4]; [by vm_compute|].
  symmetry. apply bool_decide_eq_false. rewrite !elem_of_cons, elem_of_nil.
  intros [?|[?|[?|[?|[]]]]]; congruence.
Qed.

Lemma nonConditionPrefixes_spec (prefix : string) :
  index_bool nonConditionPrefixes prefix = bool_decide (prefix ∈ excludedPrefixes).
Proof.
  unfold index_bool, nonConditionPrefixes, excludedPrefixes.
  rewrite lookup_insert, lookup_empty.
  destruct (decide ("Version" = prefix)) as [<-|H1]; [by vm_compute|].
  symmetry. apply bool_decide_eq_false. rewrite !elem_of_cons, elem_of_nil.
  intros [?|[]]; congruence.
Qed.

Lemma conditionKey_field (name p f : string) :
  conditionKey name = Some (p, f) -> f ∈ fieldNames.
Proof.
  unfold conditionKey. destruct (cut_hyphen name) as [[a b]|]; [|done].
  destruct (bool_decide (b ∈ fieldNames)) eqn:E; simpl; [|done].
  destruct (negb _); [|done]. intros [= <- <-].
  by apply bool_decide_eq_true in E.
Qed.

Lemma flattenStep_condition (st : flattenState) (fv : FeedbackValue) (p f : string) :
  conditionKey (FeedbackValue_Name fv) = Some (p, f) ->
  flattenStep st fv =
  {| conditionMap :=
       alter (setField f (feedbackVal fv)) p
         (match conditionMap st !! p with
          | Some _ => conditionMap st
          | None => <[p := newCondition p]> (conditionMap st)
          end);
     conditionOrder :=
       match conditionMap st !! p with
       | Some _ => conditionOrder st
       | None => conditionOrder st ++ [p]
       end;
     extras := extras st |}.
Proof.
  unfold conditionKey, flattenStep, SplitN_hyphen_2.
  destruct (cut_hyphen _) as [[a b]|]; [|done].
  rewrite conditionFields_spec, nonConditionPrefixes_spec.
  destruct (_ && _); [|done]. intros [= <- <-].
  by destruct (conditionMap st !! a).
Qed.

Lemma flattenStep_extra (st : flattenState) (fv : FeedbackValue) :
  conditionKey (FeedbackValue_Name fv) = None ->
  flattenStep st fv =
  {| conditionMap := conditionMap st;
     conditionOrder := conditionOrder st;
     extras := <[FeedbackValue_Name fv := feedbackVal fv]> (extras st) |}.
Proof.
  unfold conditionKey, flattenStep, SplitN_hyphen_2.
  destruct (cut_hyphen _) as [[a b]|]; [|done].
  rewrite conditionFields_spec, nonConditionPrefixes_spec.
  by destruct (_ && _).
Qed.

Lemma fieldOf_same (fv : FeedbackValue) (p f f' : string) :
  conditionKey (FeedbackValue_Name fv) = Some (p, f) ->
  fieldOf p f' fv = if String.eqb f f' then Some (feedbackVal fv) else None.
Proof.
  intros H. unfold fieldOf. rewrite H, String.eqb_refl. done.
Qed.

Lemma fieldOf_other (fv : FeedbackValue) (p q f f' : string) :
  conditionKey (FeedbackValue_Name fv) = Some (p, f) -> q <> p ->
  fieldOf q f' fv = None.
Proof.
  intros H Hne. unfold fieldOf. rewrite H.
  destruct (String.eqb_spec p q); [congruence|done].
Qed.

Lemma fieldOf_absent (values : list FeedbackValue) (p f : string) :
  p ∉ omap conditionTypeOf values -> lastSome (fieldOf p f) values = None.
Proof.
  intros Hnin. apply lastSome_None. intros fv Hfv.
  unfold fieldOf. destruct (conditionKey _) as [[q g]|] eqn:E; [|done].
  destruct (String.eqb_spec q p) as [->|]; [|done].
  exfalso. apply Hnin. apply list_elem_of_omap. exists fv. split; [done|].
  unfold conditionTypeOf. by rewrite E.
Qed.

Lemma setField_last (values : list FeedbackValue) (fv : FeedbackValue) (p f : string) :
  conditionKey (FeedbackValue_Name fv) = Some (p, f) ->
  setField f (feedbackVal fv) (lastCondition values p) = lastCondition (values ++ [fv]) p.
Proof.
  intros H. pose proof (conditionKey_field _ _ _ H) as Hf.
  unfold lastCondition. rewrite !lastSome_snoc, !(fieldOf_same fv p f) by done.
  unfold fieldNames in Hf. rewrite !elem_of_cons, elem_of_nil in Hf.
  destruct Hf as [->|[->|[->|[->|[]]]]]; reflexivity.
Qed.

Lemma lastCondition_other (values : list FeedbackValue) (fv : FeedbackValue) (p q f : string) :
  conditionKey (FeedbackValue_Name fv) = Some (p, f) -> q <> p ->
  lastCondition (values ++ [fv]) q = lastCondition values q.
Proof.
  intros H Hne. unfold lastCondition.
  by rewrite !lastSome_snoc, !(fieldOf_other fv p q f) by done.
Qed.

Lemma lastCondition_fresh (values : list FeedbackValue) (p : string) :
  p ∉ omap conditionTypeOf values -> lastCondition values p = newCondition p.
Proof.
  intros H. unfold lastCondition. by rewrite !fieldOf_absent by done.
Qed.

Lemma extraOf_condition (fv : FeedbackValue) (k p f : string) :
  conditionKey (FeedbackValue_Name fv) = Some (p, f) -> extraOf k fv = None.
Proof. intros H. unfold extraOf. by rewrite H. Qed.

Lemma extraOf_extra (fv : FeedbackValue) (k : string) :
  conditionKey (FeedbackValue_Name fv) = None ->
  extraOf k fv = if decide (FeedbackValue_Name fv = k) then Some (feedbackVal fv) else None.
Proof.
  intros H. unfold extraOf. rewrite H.
  destruct (String.eqb_spec (FeedbackValue_Name fv) k); by case_decide.
Qed.

Lemma flatten_spec (values : list FeedbackValue) :
  flattenSpec values (fold_left flattenStep values flattenInit).
Proof.
  induction values as [|fv values IH] using rev_ind.
  - split; [done|]. split; intros k; simpl; [|apply lookup_empty].
    by rewrite lookup_empty.
  - rewrite fold_left_app. simpl.
    set (st := fold_left flattenStep values flattenInit) in *.
    destruct IH as (Hord & Hmap & Hext).
    destruct (conditionKey (FeedbackValue_Name fv)) as [[p f]|] eqn:E.
    + rewrite (flattenStep_condition st fv p f E).
      assert (conditionTypeOf fv = Some p) as Hty
        by (unfold conditionTypeOf; by rewrite E).
      assert (omap conditionTypeOf (values ++ [fv]) = (omap conditionTypeOf values ++ [p])%list)
        as Homap by (rewrite omap_app; simpl; by rewrite Hty).
      assert (p ∈ conditionOrder st <-> p ∈ omap conditionTypeOf values) as Hin
        by (rewrite Hord; apply firstAppearances_elem).
      split; [|split]; simpl.
      * rewrite Homap, firstAppearances_snoc, Hmap.
        destruct (decide (p ∈ conditionOrder st)) as [Hp|Hp].
        -- rewrite decide_True by (by apply Hin). done.
        -- rewrite decide_False by (by rewrite <- Hin). by rewrite Hord.
      * intros q. destruct (decide (q = p)) as [->|Hne].
        -- rewrite lookup_alter_eq. rewrite Hmap.
           destruct (decide (p ∈ conditionOrder st)) as [Hp|Hp].
           ++ rewrite Hmap, decide_True by done. simpl.
              rewrite decide_True by done. by rewrite setField_last.
           ++ rewrite lookup_insert_eq. simpl.
              rewrite decide_True by (apply elem_of_app; right; by left).
              rewrite <- (setField_last values fv p f E).
              by rewrite lastCondition_fresh by (by rewrite <- Hin).
        -- rewrite lookup_alter_ne by done.
           rewrite (lastCondition_other values fv p q f E Hne).
           rewrite (Hmap p).
           destruct (decide (p ∈ conditionOrder st)) as [Hp|Hp].
           ++ apply Hmap.
           ++ rewrite lookup_insert_ne by done. rewrite Hmap.
              destruct (decide (q ∈ conditionOrder st)) as [Hq|Hq].
              ** rewrite decide_True by (apply elem_of_app; by left). done.
              ** rewrite decide_False; [done|].
                 rewrite elem_of_app, list_elem_of_singleton. tauto.
      * intros k. by rewrite Hext, lastSome_snoc, (extraOf_condition fv k p f E).
    + rewrite (flattenStep_extra st fv E).
      assert (conditionTypeOf fv = None) as Hty
        by (unfold conditionTypeOf; by rewrite E).
      assert (omap conditionTypeOf (values ++ [fv]) = omap conditionTypeOf values)
        as Homap by (rewrite omap_app; simpl; rewrite Hty; apply app_nil_r).
      split; [|split]; simpl.
      * by rewrite Homap.
      * intros q. rewrite Hmap. destruct (decide _); [|done].
        f_equal. unfold lastCondition, fieldOf.
        rewrite !lastSome_snoc, E. done.
      * intros k. rewrite lastSome_snoc, (extraOf_extra fv k E), lookup_insert.
        case_decide; [done|apply Hext].
Qed.

Lemma parseFeedbackValues_conditions (values : list FeedbackValue) :
  fst (parseFeedbackValues values)
  = map (lastCondition values) (firstAppearances (omap conditionTypeOf values)).
Proof.
  unfold parseFeedbackValues. simpl.
  destruct (flatten_spec values) as (Hord & Hmap & _).
  rewrite <- Hord. apply map_ext_in. intros t Ht.
  apply list_elem_of_In in Ht.
  unfold derefCondition. rewrite Hmap. by rewrite decide_True.
Qed.

Lemma parseFeedbackValues_extras (values : list FeedbackValue) (k : string) :
  snd (parseFeedbackValues values) !! k = lastSome (extraOf k) values.
Proof.
  unfold parseFeedbackValues. simpl.
  destruct (flatten_spec values) as (_ & _ & Hext). apply Hext.
Qed.

Lemma parseFeedbackValues_types (values : list FeedbackValue) :
  map Condition_Type (fst (parseFeedbackValues values))
  = firstAppearances (omap conditionTypeOf values).
Proof.
  rewrite parseFeedbackValues_conditions, map_map. simpl. apply map_id.
Qed.


(** C3, as the code has it. [parseFeedbackValues] returns at most one
    condition per type, and each field of a condition holds the value of
    the last entry of the input that names it (the empty string when none
    does); a repeated field is no error, the function is total. *)
Theorem parseFeedbackValues_last_seen_kept (values : list FeedbackValue) :
  let conds := fst (parseFeedbackValues values) in
  NoDup (map Condition_Type conds) /\
  Forall (fun c => c = lastCondition values (Condition_Type c)) conds.
Proof.
  cbv zeta. split.
  - rewrite parseFeedbackValues_types. apply firstAppearances_NoDup.
  - rewrite parseFeedbackValues_conditions. apply Forall_forall.
    intros c Hc. apply list_elem_of_In, in_map_iff in Hc as (t & <- & _). done.
Qed.

(** C3, as stated, fails: of two Available-Status entries the first says
    True, and the condition returned says False. *)
Lemma parseFeedbackValues_first_seen_not_kept :
  let values := [fvString "Available-Status" "True"; fvString "Available-Status" "False"] in
  firstSome (fieldOf "Available" "Status") values = Some "True" /\
  fst (parseFeedbackValues values)
  = [ {| Condition_Type := "Available"; Condition_Status := "False";
         Condition_Reason := ""; Condition_Message := "";
         Condition_LastTransitionTime := "" |} ].
Proof. vm_compute. done. Qed.

Lemma conditionKey_no_field (fv : FeedbackValue) :
  hasConditionField fv = false -> conditionKey (FeedbackValue_Name fv) = None.
Proof.
  unfold hasConditionField, conditionKey.
  destruct (cut_hyphen _) as [[a b]|]; [|done]. by intros ->.
Qed.

(** C7, as the code has it. When no name of the input has a condition field
    after its first hyphen, [parseFeedbackValues] returns no condition and
    an extras map whose keys are the names of the input: as many entries as
    there are distinct names, and as many as the input is long when no name
    repeats. *)
Theorem parseFeedbackValues_extras_only (values : list FeedbackValue) :
  Forall (fun fv => hasConditionField fv = false) values ->
  let result := parseFeedbackValues values in
  fst result = [] /\
  dom (snd result) = list_to_set (map FeedbackValue_Name values) /\
  size (snd result) = length (remove_dups (map FeedbackValue_Name values)) /\
  (NoDup (map FeedbackValue_Name values) -> size (snd result) = length values).
Proof.
  intros Hall. cbv zeta. rewrite Forall_forall in Hall.
  assert (dom (snd (parseFeedbackValues values))
          = list_to_set (map FeedbackValue_Name values)) as Hdom.
  { apply set_eq. intros k.
    rewrite elem_of_dom, parseFeedbackValues_extras, elem_of_list_to_set.
    rewrite <- not_eq_None_Some, lastSome_None. split.
    - intros Hk. destruct (decide (k ∈ map FeedbackValue_Name values)) as [|Hnin]; [done|].
      exfalso. apply Hk. intros fv Hfv.
      rewrite extraOf_extra by (apply conditionKey_no_field; by apply Hall).
      case_decide as Heq; [|done]. exfalso. apply Hnin. subst k.
      apply list_elem_of_In, in_map, list_elem_of_In. done.
    - intros Hk Hnone.
      apply list_elem_of_In, in_map_iff in Hk as (fv & <- & Hfv).
      apply list_elem_of_In in Hfv. specialize (Hnone fv Hfv).
      rewrite extraOf_extra in Hnone by (apply conditionKey_no_field; by apply Hall).
      by rewrite decide_True in Hnone. }
  assert (size (snd (parseFeedbackValues values))
          = length (remove_dups (map FeedbackValue_Name values))) as Hsize.
  { rewrite <- size_dom, Hdom.
    rewrite <- (size_list_to_set (C := gset string) (remove_dups _))
      by apply NoDup_remove_dups.
    f_equal. apply set_eq. intros k.
    by rewrite !elem_of_list_to_set, elem_of_remove_dups. }
  split; [|split; [done|split; [done|]]].
  - rewrite parseFeedbackValues_conditions.
    replace (omap conditionTypeOf values) with (@nil string); [done|].
    symmetry. clear Hdom Hsize. induction values as [|fv values IH]; [done|].
    simpl. unfold conditionTypeOf at 1.
    rewrite conditionKey_no_field by (apply Hall; by left). simpl.
    apply IH. intros x Hx. apply Hall. by right.
  - intros Hnd. rewrite <- size_dom, Hdom, size_list_to_set by done.
    apply length_map.
Qed.

(** ** The document parsers *)

Section ParserProperties.

Context {rt : Runtime}.

(** *** Aggregate-sync documents *)







(** The maximum of a start value and a list is an upper bound of both and
    is the start value or an element of the list. *)
Lemma foldr_max_spec (l : list Z) (t : Z) :
  let m := foldr Z.max t l in
  t <= m /\ Forall (fun u => u <= m) l /\ (m = t \/ m ∈ l).
Proof.
  induction l as [|x l (IH1 & IH2 & IH3)]; simpl.
  - split; [lia|]. split; [constructor|by left].
  - simpl in *. split; [lia|]. split.
    + constructor; [lia|]. eapply Forall_impl; [exact IH2|]. simpl. lia.
    + destruct (Z.max_spec x (foldr Z.max t l)) as [[_ ->]|[_ ->]].
      * destruct IH3 as [->|?]; [by left|right; by right].
      * right. by left.
Qed.


Lemma parseManifestWorkSyncStatus_error (jsonStr : string) (err : error) :
  Unmarshal_sync jsonStr = DecodeError err ->
  parseManifestWorkSyncStatus jsonStr = (zeroManifestWorkSync, Some ("invalid JSON: " +:+ err)).
Proof. intros H. unfold parseManifestWorkSyncStatus. by rewrite H. Qed.

(** *** Standalone certificate documents *)

Lemma certReady_fold (conds : list certCondition) (ready : option bool) :
  fold_left certReadyStep conds ready =
  match lastSome (certStatusOf "Ready") conds with
  | Some b => Some b
  | None => ready
  end.
Proof.
  revert ready. induction conds as [|c conds IH]; intros ready; simpl; [done|].
  rewrite IH. destruct (lastSome _ conds); [done|].
  unfold certReadyStep, certStatusOf. by destruct (String.eqb _ "Ready").
Qed.

Lemma certTime_timeOf (s : string) : certTime s = default zeroTime (timeOf s).
Proof.
  unfold certTime, timeOf. destruct (String.eqb s ""); simpl; [done|].
  by destruct (Parse_RFC3339 s).
Qed.

(** C8. [parseCertificate] fails exactly when the text does not decode.
    On a document that decodes it returns a certificate status whose DNS
    names are those of the spec section; whose readiness is unknown when no
    condition has type Ready, and otherwise says whether the last condition
    of that type has status True; and whose expiry and renewal times are
    the instants notAfter and renewalTime denote, or the zero time when the
    field is empty or does not parse. *)
Theorem parseCertificate_spec (jsonStr : string) :
  (forall cert, Unmarshal_cert jsonStr = Decoded cert ->
     let conds := certDoc_Status_Conditions cert in
     exists cs,
       parseCertificate jsonStr = (Some cs, None) /\
       Cert_DNSNames cs = certDoc_Spec_DNSNames cert /\
       Cert_Ready cs = lastSome (certStatusOf "Ready") conds /\
       (Cert_Ready cs = None <-> Forall (fun c => certCondition_Type c <> "Ready") conds) /\
       Cert_NotAfter cs = default zeroTime (timeOf (certDoc_Status_NotAfter cert)) /\
       Cert_RenewalTime cs = default zeroTime (timeOf (certDoc_Status_RenewalTime cert))) /\
  (forall err, Unmarshal_cert jsonStr = DecodeError err ->
     parseCertificate jsonStr = (None, Some ("invalid JSON: " +:+ err))).
Proof.
  unfold parseCertificate. split.
  - intros cert ->. cbv zeta. eexists. split; [reflexivity|]. simpl.
    rewrite certReady_fold, !certTime_timeOf.
    split; [done|]. split; [by destruct (lastSome _ _)|]. split; [|done].
    destruct (lastSome _ _) as [b|] eqn:E.
    + split; [done|]. intros Hall. exfalso.
      apply lastSome_Some_elem in E as (c & Hc & Hb).
      rewrite Forall_forall in Hall. specialize (Hall c Hc).
      unfold certStatusOf in Hb.
      destruct (String.eqb_spec (certCondition_Type c) "Ready"); done.
    + split; [|done]. intros _. apply Forall_forall. intros c Hc.
      rewrite lastSome_None in E. specialize (E c Hc).
      unfold certStatusOf in E.
      destruct (String.eqb_spec (certCondition_Type c) "Ready"); done.
  - by intros err ->.
Qed.

(** *** The main document *)

Lemma mainStep_cert (st : mainState) (m : manifest) :
  main_cert (mainStep st m) =
  if kindIs "Certificate" m then Some zeroCertificateStatus else main_cert st.
Proof.
  unfold mainStep, kindIs.
  destruct (String.eqb_spec (ResourceMeta_Kind (manifest_ResourceMeta m)) "HostedCluster") as [E|_].
  - rewrite E. by destruct (parseFeedbackValues (manifest_StatusFeedback_Values m)).
  - by destruct (String.eqb _ "Certificate").
Qed.

Lemma mainStep_fold_cert (ms : list manifest) (st : mainState) :
  main_cert (fold_left mainStep ms st) =
  if existsb (kindIs "Certificate") ms then Some zeroCertificateStatus else main_cert st.
Proof.
  revert st. induction ms as [|m ms IH]; intros st; simpl; [done|].
  rewrite IH, mainStep_cert.
  destruct (kindIs "Certificate" m); simpl; [|done]. by destruct (existsb _ ms).
Qed.

(** C6. On a main document that decodes, [parseMainManifestWork] returns a
    certificate exactly when the manifest list has an entry of kind
    Certificate, and that certificate has unknown readiness, zero expiry
    and renewal times and no DNS name. *)
Theorem parseMainManifestWork_certificate (jsonStr : string) (mw : mainDoc) :
  Unmarshal_main jsonStr = Decoded mw ->
  exists result,
    parseMainManifestWork jsonStr = (Some result, None) /\
    Result_Certificate result =
      if existsb (kindIs "Certificate") (mainDoc_Manifests mw)
      then Some {| Cert_Ready := None; Cert_NotAfter := zeroTime;
                   Cert_RenewalTime := zeroTime; Cert_DNSNames := [] |}
      else None.
Proof.
  intros H. unfold parseMainManifestWork. rewrite H.
  eexists. split; [reflexivity|]. simpl. by rewrite mainStep_fold_cert.
Qed.

(** What one HostedCluster entry does to each local of the loop. *)
Lemma mainStep_fields (st : mainState) (m : manifest) :
  main_conditions (mainStep st m) = default (main_conditions st) (hostedConditions m) /\
  Version_Current (main_version (mainStep st m))
    = default (Version_Current (main_version st)) (hostedExtra "Version-Current" m) /\
  Version_Desired (main_version (mainStep st m))
    = default (Version_Desired (main_version st)) (hostedExtra "Version-Desired" m) /\
  Version_Status (main_version (mainStep st m))
    = default (Version_Status (main_version st)) (hostedExtra "Version-Status" m) /\
  Version_Image (main_version (mainStep st m))
    = default (Version_Image (main_version st)) (hostedExtra "Version-Image" m) /\
  Version_AvailableUpdates (main_version (mainStep st m))
    = default (Version_AvailableUpdates (main_version st))
        (Split_comma <$> hostedNonEmptyExtra "Version-AvailableUpdates" m).
Proof.
  unfold mainStep, hostedConditions, hostedNonEmptyExtra, hostedExtra, kindIs.
  destruct (String.eqb (ResourceMeta_Kind (manifest_ResourceMeta m)) "HostedCluster").
  - destruct (parseFeedbackValues _) as [conds extras]. simpl. unfold orExtra.
    repeat split; try by destruct (extras !! _).
    destruct (extras !! _) as [v|]; [|done]. by destruct (String.eqb v "").
  - by destruct (String.eqb _ "Certificate").
Qed.

Lemma mainStep_fold_fields (ms : list manifest) (st : mainState) :
  let st' := fold_left mainStep ms st in
  main_conditions st' = default (main_conditions st) (lastSome hostedConditions ms) /\
  Version_Current (main_version st')
    = default (Version_Current (main_version st)) (lastSome (hostedExtra "Version-Current") ms) /\
  Version_Desired (main_version st')
    = default (Version_Desired (main_version st)) (lastSome (hostedExtra "Version-Desired") ms) /\
  Version_Status (main_version st')
    = default (Version_Status (main_version st)) (lastSome (hostedExtra "Version-Status") ms) /\
  Version_Image (main_version st')
    = default (Version_Image (main_version st)) (lastSome (hostedExtra "Version-Image") ms) /\
  Version_AvailableUpdates (main_version st')
    = default (Version_AvailableUpdates (main_version st))
        (Split_comma <$> lastSome (hostedNonEmptyExtra "Version-AvailableUpdates") ms).
Proof.
  revert st. induction ms as [|m ms IH]; intros st; simpl; [done|].
  destruct (IH (mainStep st m)) as (-> & -> & -> & -> & -> & ->).
  destruct (mainStep_fields st m) as (-> & -> & -> & -> & -> & ->).
  repeat split;
    match goal with
    | |- context [lastSome ?f ms] => by destruct (lastSome f ms)
    end.
Qed.

(** C10, as the code has it. On a main document that decodes,
    [parseMainManifestWork] returns the conditions of the last entry of kind
    HostedCluster; each of the four version strings is the value the last
    HostedCluster entry with that extra gives it; the available updates are
    the comma-separated fields of the last non-empty Version-AvailableUpdates
    extra of a HostedCluster entry (an entry whose value is empty changes
    nothing). A field no entry provides is left at its zero value. *)
Theorem parseMainManifestWork_last_entry (jsonStr : string) (mw : mainDoc) :
  Unmarshal_main jsonStr = Decoded mw ->
  let ms := mainDoc_Manifests mw in
  exists result,
    parseMainManifestWork jsonStr = (Some result, None) /\
    Result_Conditions result = default [] (lastSome hostedConditions ms) /\
    Version_Current (Result_Version result)
      = default "" (lastSome (hostedExtra "Version-Current") ms) /\
    Version_Desired (Result_Version result)
      = default "" (lastSome (hostedExtra "Version-Desired") ms) /\
    Version_Status (Result_Version result)
      = default "" (lastSome (hostedExtra "Version-Status") ms) /\
    Version_Image (Result_Version result)
      = default "" (lastSome (hostedExtra "Version-Image") ms) /\
    Version_AvailableUpdates (Result_Version result)
      = default [] (Split_comma <$> lastSome (hostedNonEmptyExtra "Version-AvailableUpdates") ms).
Proof.
  intros H. cbv zeta. unfold parseMainManifestWork. rewrite H.
  eexists. split; [reflexivity|]. simpl.
  apply (mainStep_fold_fields (mainDoc_Manifests mw) mainInit).
Qed.

(** *** Worker-pool documents *)

Lemma extraOf_unhyphenated (name : string) (fv : FeedbackValue) :
  conditionKey name = None -> extraOf name fv = namedValue name fv.
Proof.
  intros H. unfold extraOf, namedValue.
  destruct (String.eqb_spec (FeedbackValue_Name fv) name) as [->|].
  - by rewrite H.
  - by destruct (conditionKey (FeedbackValue_Name fv)).
Qed.

Lemma lastSome_ext {A B : Type} (f g : A -> option B) (l : list A) :
  (forall x, f x = g x) -> lastSome f l = lastSome g l.
Proof. intros H. induction l as [|x l IH]; simpl; [done|]. by rewrite IH, H. Qed.

Lemma nodePoolOf_spec (m : manifest) : nodePoolOf m = nodePoolSpec m.
Proof.
  unfold nodePoolOf, nodePoolSpec.
  pose proof (parseFeedbackValues_extras (manifest_StatusFeedback_Values m)) as Hext.
  destruct (parseFeedbackValues _) as [conds extras]. simpl in *.
  unfold orExtra. rewrite !Hext.
  rewrite (lastSome_ext (extraOf "Replicas") (namedValue "Replicas"))
    by (intros; by apply extraOf_unhyphenated).
  rewrite (lastSome_ext (extraOf "Version") (namedValue "Version"))
    by (intros; by apply extraOf_unhyphenated).
  done.
Qed.

Lemma nodePoolStep_fold (ms : list manifest) (acc : list NodePoolStatus) :
  fold_left nodePoolStep ms acc
  = acc ++ map nodePoolSpec (filter (fun m => kindIs "NodePool" m = true) ms).
Proof.
  revert acc. induction ms as [|m ms IH]; intros acc; simpl.
  - by rewrite app_nil_r.
  - rewrite IH. unfold nodePoolStep, kindIs.
    destruct (String.eqb _ "NodePool") eqn:E; simpl.
    + rewrite filter_cons_True by done. simpl.
      by rewrite <- app_assoc, nodePoolOf_spec.
    + rewrite filter_cons_False; [done|]. by rewrite E.
Qed.

(** C9. On a worker-pool document that decodes,
    [parseManifestWorkNodePools] returns no error and one status per entry
    of kind NodePool, in order: its replica count is the integer the
    Replicas extra (the last value of that name) reads as, and 0 when there
    is no such extra or it does not read as an integer; its version is the
    Version extra. *)
Theorem parseManifestWorkNodePools_decoded (jsonStr : string) (mw : poolDoc) :
  Unmarshal_pool jsonStr = Decoded mw ->
  parseManifestWorkNodePools jsonStr
  = (map nodePoolSpec (filter (fun m => kindIs "NodePool" m = true) (poolDoc_Manifests mw)),
     None).
Proof.
  intros H. unfold parseManifestWorkNodePools. rewrite H.
  by rewrite nodePoolStep_fold.
Qed.

End ParserProperties.

(** ** Integers in decimal *)

Lemma digit_val_pretty (d : N) :
  (d < 10)%N -> digit_val (pretty_N_char d) = Some (Z.of_N d).
Proof.
  intros H.
  assert (d = 0 \/ d = 1 \/ d = 2 \/ d = 3 \/ d = 4 \/ d = 5 \/ d = 6 \/ d = 7
          \/ d = 8 \/ d = 9)%N as Hd by lia.
  repeat (destruct Hd as [->|Hd]; [reflexivity|]). by subst.
Qed.

Lemma digits_val_pretty_go (x : N) (s : string) (acc : Z) :
  exists k : Z, 0 <= k /\
    digits_val acc (pretty_N_go x s) = digits_val (acc * 10 ^ k + Z.of_N x) s.
Proof.
  revert s acc. induction (N.lt_wf_0 x) as [x _ IH]. intros s acc.
  destruct (decide (x = 0%N)) as [->|Hx].
  - exists 0. split; [done|]. rewrite pretty_N_go_0. f_equal. lia.
  - rewrite pretty_N_go_step by lia.
    assert (x `div` 10 < x)%N as Hlt by (apply N.div_lt; lia).
    destruct (IH _ Hlt (String (pretty_N_char (x `mod` 10)) s) acc) as (k & Hk & ->).
    exists (k + 1). split; [lia|]. simpl.
    rewrite digit_val_pretty by (apply N.mod_upper_bound; lia).
    f_equal. rewrite Z.pow_add_r, Z.pow_1_r by lia.
    rewrite N2Z.inj_mod, N2Z.inj_div. change (Z.of_N 10) with 10.
    pose proof (Z.div_mod (Z.of_N x) 10 ltac:(lia)). lia.
Qed.

Lemma digits_val_pretty (x : N) : digits_val 0 (pretty_N_go x "") = Some (Z.of_N x).
Proof.
  destruct (digits_val_pretty_go x "" 0) as (k & _ & ->). done.
Qed.

Lemma pretty_go_head (x : N) (s : string) :
  (0 < x)%N ->
  exists d rest, (d < 10)%N /\ pretty_N_go x s = String (pretty_N_char d) rest.
Proof.
  revert s. induction (N.lt_wf_0 x) as [x _ IH]. intros s Hx.
  rewrite pretty_N_go_step by done.
  destruct (decide (x `div` 10 = 0)%N) as [E|E].
  - rewrite E, pretty_N_go_0. eexists _, _. split; [|done].
    apply N.mod_upper_bound. lia.
  - apply IH.
    + apply N.div_lt; lia.
    + by apply N.neq_0_lt_0.
Qed.

Lemma Atoi_unsigned (d : N) (rest : string) :
  (d < 10)%N ->
  Atoi (String (pretty_N_char d) rest)
  = match digits_val 0 (String (pretty_N_char d) rest) with
    | Some n => if is_int n then Some n else None
    | None => None
    end.
Proof.
  intros H.
  assert (d = 0 \/ d = 1 \/ d = 2 \/ d = 3 \/ d = 4 \/ d = 5 \/ d = 6 \/ d = 7
          \/ d = 8 \/ d = 9)%N as Hd by lia.
  repeat (destruct Hd as [->|Hd]; [reflexivity|]). by subst.
Qed.

Lemma Atoi_minus (c : ascii) (rest : string) :
  Atoi (String "-" (String c rest))
  = match digits_val 0 (String c rest) with
    | Some n => if is_int (- n) then Some (- n) else None
    | None => None
    end.
Proof. reflexivity. Qed.

Lemma pretty_positive_go (p : positive) :
  pretty_positive p = pretty_N_go (N.pos p) "".
Proof. reflexivity. Qed.

(** [strconv.Atoi] reads back what [%d] prints. *)
Lemma Atoi_Sprintf_d (n : Z) : is_int n = true -> Atoi (Sprintf_d n) = Some n.
Proof.
  intros Hn. unfold Sprintf_d, pretty, pretty_Z.
  destruct n as [|p|p]; [done| |]; unfold pretty; rewrite pretty_positive_go;
    destruct (pretty_go_head (N.pos p) "") as (d & rest & Hd & E); try lia;
    pose proof (digits_val_pretty (N.pos p)) as Hv; rewrite E in *.
  - rewrite Atoi_unsigned, Hv by done. simpl. by rewrite Hn.
  - change ("-" +:+ String (pretty_N_char d) rest)
      with (String "-" (String (pretty_N_char d) rest)).
    rewrite Atoi_minus, Hv.
    change (- Z.of_N (N.pos p)) with (Z.neg p). by rewrite Hn.
Qed.

(** A Replicas value of integer type is the replica count. *)
Lemma nodePoolSpec_integer_replicas (m : manifest) (n : Z) :
  lastSome (namedValue "Replicas") (manifest_StatusFeedback_Values m) = Some (Sprintf_d n) ->
  is_int n = true ->
  NodePool_Replicas (nodePoolSpec m) = n.
Proof. intros H Hn. unfold nodePoolSpec. simpl. by rewrite H, Atoi_Sprintf_d. Qed.

(** A Replicas value that is no integer, or none at all, is the count 0. *)
Lemma nodePoolSpec_no_replicas (m : manifest) :
  match lastSome (namedValue "Replicas") (manifest_StatusFeedback_Values m) with
  | Some v => Atoi v = None
  | None => True
  end ->
  NodePool_Replicas (nodePoolSpec m) = 0.
Proof.
  unfold nodePoolSpec. simpl. destruct (lastSome _ _); [|done]. by intros ->.
Qed.

(** ** The aggregator *)

Lemma append_assoc (s1 s2 s3 : string) : (s1 +:+ s2) +:+ s3 = s1 +:+ (s2 +:+ s3).
Proof.
  induction s1 as [|c s1 IH]; [done|].
  change (String c ((s1 +:+ s2) +:+ s3) = String c (s1 +:+ (s2 +:+ s3))).
  by f_equal.
Qed.

Lemma sort_Strings_Permutation (l1 l2 : list string) :
  l1 ≡ₚ l2 -> sort_Strings l1 = sort_Strings l2.
Proof.
  intros H. unfold sort_Strings.
  apply (Sorted_unique String.le); try apply Sorted_merge_sort; try apply _.
  by rewrite !merge_sort_Permutation.
Qed.

Lemma collectManifestWorkKeys_Permutation (o1 o2 : list (string * string)) :
  o1 ≡ₚ o2 -> collectManifestWorkKeys o1 ≡ₚ collectManifestWorkKeys o2.
Proof. intros H. unfold collectManifestWorkKeys. by rewrite H. Qed.

Lemma manifestWorkKeys_elem (resources : gmap string string)
    (order : list (string * string)) (key : string) :
  rangeOrder resources order ->
  key ∈ sort_Strings (collectManifestWorkKeys order) <->
  HasPrefix key "manifest_work-" = true /\ exists jsonStr, resources !! key = Some jsonStr.
Proof.
  intros Hord. unfold sort_Strings, collectManifestWorkKeys, rangeOrder in *.
  rewrite merge_sort_Permutation, list_elem_of_filter, list_elem_of_fmap.
  split.
  - intros (Hp & [k v] & -> & Hin). split; [done|]. exists v.
    rewrite Hord in Hin. by apply elem_of_map_to_list in Hin.
  - intros (Hp & v & Hv). split; [done|]. exists (key, v). split; [done|].
    rewrite Hord. by apply elem_of_map_to_list.
Qed.

Section AggregatorProperties.

Context {rt : Runtime}.







(** The certificate loop only looks at the first certificate entry of its
    visiting order. *)
Lemma certLoop_first (order : list (string * string)) (status : HCPStatus) :
  certLoop order status =
  match firstCertificate order with
  | None => (Some status, None)
  | Some (key, jsonStr) =>
      match parseCertificate jsonStr with
      | (_, Some err) => (None, Some ("failed to parse ingress certificate: " +:+ err))
      | (cert, None) =>
          (Some {| ClusterID := ClusterID status; ClusterName := ClusterName status;
                   ClusterState := ClusterState status;
                   ManagementCluster := ManagementCluster status;
                   Version := Version status;
                   APIServerCertificate := APIServerCertificate status;
                   IngressCertificate := cert;
                   ManifestWorks := ManifestWorks status;
                   HostedClusterConditions := HostedClusterConditions status;
                   NodePools := NodePools status |}, None)
      end
  end.
Proof.
  unfold firstCertificate.
  induction order as [|[k v] order IH]; simpl; [done|].
  destruct (HasPrefix k "certificate-") eqn:E.
  - by rewrite filter_cons_True by done.
  - rewrite filter_cons_False by (simpl; by rewrite E). apply IH.
Qed.

Lemma firstCertificate_elem (resources : gmap string string)
    (order : list (string * string)) (key jsonStr : string) :
  rangeOrder resources order ->
  firstCertificate order = Some (key, jsonStr) ->
  HasPrefix key "certificate-" = true /\ resources !! key = Some jsonStr.
Proof.
  unfold rangeOrder, firstCertificate. intros Hord H.
  apply head_Some_elem_of, list_elem_of_filter in H as [Hp Hin].
  split; [done|]. rewrite Hord in Hin. by apply elem_of_map_to_list in Hin.
Qed.

(** The result does not depend on the order of the first pass, and depends
    on the order of the last loop only through the certificate entry that
    is visited first. *)
Lemma parseLiveResources_order (resources : gmap string string) (clusterID : string)
    (order1 order1' order2 order2' : list (string * string)) :
  rangeOrder resources order1 -> rangeOrder resources order1' ->
  firstCertificate order2 = firstCertificate order2' ->
  parseLiveResources order1 order2 resources clusterID
  = parseLiveResources order1' order2' resources clusterID.
Proof.
  unfold rangeOrder. intros H1 H1' H2. unfold parseLiveResources.
  rewrite (sort_Strings_Permutation (collectManifestWorkKeys order1)
             (collectManifestWorkKeys order1'))
    by (apply collectManifestWorkKeys_Permutation; by rewrite H1, H1').
  destruct (syncLoop _ _ _); [|done].
  destruct (mainBlock _ _) as [[[[? ?] ?] ?]|]; [|done].
  destruct (nodePoolLoop _ _ _); [|done].
  by rewrite !certLoop_first, H2.
Qed.

End AggregatorProperties.

Lemma prefix_append (s t : string) : String.prefix s (s +:+ t) = true.
Proof.
  induction s as [|c s IH]; simpl; [by destruct t|].
  change (String c s +:+ t) with (String c (s +:+ t)). simpl.
  by destruct (ascii_dec c c).
Qed.




Lemma rangeOrder_lookup (resources : gmap string string) (order : list (string * string))
    (key jsonStr : string) :
  rangeOrder resources order ->
  (key, jsonStr) ∈ order <-> resources !! key = Some jsonStr.
Proof. unfold rangeOrder. intros ->. apply elem_of_map_to_list. Qed.

Lemma rangeOrder_list_to_map (order : list (string * string)) :
  NoDup (order.*1) -> rangeOrder (list_to_map order) order.
Proof. intros H. unfold rangeOrder. symmetry. by apply map_to_list_to_map. Qed.

(** With at most one certificate key, every visiting order meets the same
    certificate entry first. *)
Lemma firstCertificate_unique (resources : gmap string string)
    (order order' : list (string * string)) :
  rangeOrder resources order -> rangeOrder resources order' ->
  (forall k1 k2 v1 v2, resources !! k1 = Some v1 -> resources !! k2 = Some v2 ->
     HasPrefix k1 "certificate-" = true -> HasPrefix k2 "certificate-" = true -> k1 = k2) ->
  firstCertificate order = firstCertificate order'.
Proof.
  intros Ho Ho' Huniq. unfold firstCertificate.
  set (P := fun kv : string * string => HasPrefix kv.1 "certificate-" = true).
  assert (filter P order ≡ₚ filter P order') as Hperm.
  { unfold rangeOrder in *. by rewrite Ho, Ho'. }
  assert (NoDup (filter P order)) as Hnd.
  { apply NoDup_filter. unfold rangeOrder in Ho. rewrite Ho. apply NoDup_map_to_list. }
  assert (forall x y, x ∈ filter P order -> y ∈ filter P order -> x = y) as Hall.
  { intros [k1 v1] [k2 v2] [H1 H1']%list_elem_of_filter [H2 H2']%list_elem_of_filter.
    rewrite (rangeOrder_lookup resources order) in H1', H2' by done.
    assert (k1 = k2) as -> by (by eapply Huniq).
    by rewrite H1' in H2'; injection H2' as ->. }
  destruct (filter P order) as [|x [|y l]] eqn:E.
  - apply Permutation_nil_l in Hperm. by rewrite <- Hperm.
  - apply Permutation_singleton_l in Hperm. by rewrite Hperm.
  - exfalso. assert (x = y) as -> by (apply Hall; [by left|right; by left]).
    apply NoDup_cons in Hnd as [Hnin _]. apply Hnin. by left.
Qed.

Section AggregatorTheorems.

Context {rt : Runtime}.

(** With at most one certificate document, [parseLiveResources] is a
    function of the mapping and the cluster identifier: all its runs return
    the same result. *)
Lemma parseLiveResources_single_certificate (resources : gmap string string)
    (clusterID : string) (r r' : option HCPStatus * option error) :
  (forall k1 k2 v1 v2, resources !! k1 = Some v1 -> resources !! k2 = Some v2 ->
     HasPrefix k1 "certificate-" = true -> HasPrefix k2 "certificate-" = true -> k1 = k2) ->
  mayReturn resources clusterID r -> mayReturn resources clusterID r' -> r = r'.
Proof.
  intros Huniq (o1 & o2 & H1 & H2 & <-) (o1' & o2' & H1' & H2' & <-).
  apply parseLiveResources_order; try done.
  by apply (firstCertificate_unique resources).
Qed.


End AggregatorTheorems.

(** * The parsers on text *)

Section OnText.

Import Docs.

#[local] Existing Instance textRuntime.

(** The document a text decodes to, by running the reader. *)
Ltac decode_as H call :=
  eassert (call = Decoded _) as H by (vm_compute; reflexivity).

(** A list of entries with distinct keys is a visiting order of its map. *)
Ltac visiting_order :=
  apply rangeOrder_list_to_map; apply (bool_decide_unpack _); vm_compute; exact I.

(** ** The tests of [parser_test.go] *)

Example TestParseFeedbackValues :
  parseFeedbackValues
    [ fvString "Available-Status" "True";
      fvString "Available-Reason" "AsExpected";
      fvString "Available-Message" "The hosted control plane is available";
      fvString "Progressing-Status" "False";
      fvString "Progressing-Reason" "AsExpected";
      fvString "Version-Current" "4.21.0";
      fvInteger "Replicas" 2 ]
  = ([ {| Condition_Type := "Available"; Condition_Status := "True";
          Condition_Reason := "AsExpected";
          Condition_Message := "The hosted control plane is available";
          Condition_LastTransitionTime := "" |};
       {| Condition_Type := "Progressing"; Condition_Status := "False";
          Condition_Reason := "AsExpected"; Condition_Message := "";
          Condition_LastTransitionTime := "" |} ],
     <["Version-Current" := "4.21.0"]> (<["Replicas" := "2"]> ∅)).
Proof. vm_compute. reflexivity. Qed.

Example TestOrderConditions :
  map (fun c => (Condition_Type c, Condition_Status c))
    (fst (parseFeedbackValues
       [ fvString "ZetaCondition-Status" "True";
         fvString "Available-Status" "False";
         fvString "Progressing-Status" "Unknown";
         fvString "AlphaCondition-Status" "False";
         fvString "BetaCondition-Status" "True" ]))
  = [ ("ZetaCondition", "True"); ("Available", "False"); ("Progressing", "Unknown");
      ("AlphaCondition", "False"); ("BetaCondition", "True") ].
Proof. vm_compute. reflexivity. Qed.

Example TestParseCertificateNotReady :
  parseCertificate certificateNotReady
  = (Some {| Cert_Ready := Some false; Cert_NotAfter := zeroTime;
             Cert_RenewalTime := zeroTime; Cert_DNSNames := ["*.example.com"] |}, None).
Proof. vm_compute. reflexivity. Qed.

Example TestParseCertificateMalformed :
  parseCertificate malformed
  = (None, Some "invalid JSON: invalid character 'n' looking for beginning of object key string").
Proof. vm_compute. reflexivity. Qed.

Example TestParseLiveResources :
  exists status,
    parseLiveResources liveEntries liveEntries liveResources "testid" = (Some status, None) /\
    ManagementCluster status = "hs-mc-abc" /\
    map ManifestWorkSync_Name (ManifestWorks status) = ["testid"; "testid-workers"] /\
    Version_Current (Version status) = "4.21.0" /\
    map NodePool_Name (NodePools status) = ["workers"] /\
    (Cert_Ready <$> IngressCertificate status) = Some (Some true).
Proof. eexists. split; [vm_compute; reflexivity|]. vm_compute. done. Qed.

Lemma rangeOrder_liveEntries : rangeOrder liveResources liveEntries.
Proof. visiting_order. Qed.

(** ** The claims at concrete documents *)

(** C1 fails on the code. The mapping holds two certificate documents, one
    ready and one not. Two runs of [parseLiveResources] on it, with the
    same cluster identifier, may return different snapshots: one reports
    the ingress certificate ready (the loop met certificate-a first), the
    other reports it not ready (it met certificate-b first). *)
Lemma parseLiveResources_two_certificates :
  exists r1 r2,
    mayReturn twoCertificates "x" r1 /\
    mayReturn twoCertificates "x" r2 /\
    ingressReady r1 = Some true /\
    ingressReady r2 = Some false.
Proof.
  assert (rangeOrder twoCertificates twoCertificatesAB) as HAB by visiting_order.
  assert (rangeOrder twoCertificates twoCertificatesBA) as HBA.
  { unfold rangeOrder in *. rewrite <- HAB. apply Permutation_swap. }
  exists (parseLiveResources twoCertificatesAB twoCertificatesAB twoCertificates "x"),
         (parseLiveResources twoCertificatesBA twoCertificatesBA twoCertificates "x").
  split; [by exists twoCertificatesAB, twoCertificatesAB|].
  split; [by exists twoCertificatesBA, twoCertificatesBA|].
  split; vm_compute; reflexivity.
Qed.



(** An instance: three entries, none with a condition field. *)
Lemma parseFeedbackValues_extras_only_witness :
  let result := parseFeedbackValues
                  [fvInteger "Replicas" 2; fvString "Version-Current" "4.21.0";
                   fvString "Some-Thing" "x"] in
  fst result = [] /\ size (snd result) = 3%nat.
Proof.
  destruct (parseFeedbackValues_extras_only
              [fvInteger "Replicas" 2; fvString "Version-Current" "4.21.0";
               fvString "Some-Thing" "x"]) as (H1 & _ & _ & H4).
  - repeat constructor.
  - cbv zeta. split; [exact H1|]. apply H4. by apply (bool_decide_unpack _).
Defined.

(** C7, as stated, fails: no name has a condition field, the input has two
    entries, and the extras map has one. *)
Lemma parseFeedbackValues_repeated_extra :
  let values := [fvString "Replicas" "1"; fvString "Replicas" "2"] in
  Forall (fun fv => hasConditionField fv = false) values /\
  fst (parseFeedbackValues values) = [] /\
  length values = 2%nat /\
  size (snd (parseFeedbackValues values)) = 1%nat.
Proof. cbv zeta. split; [repeat constructor|]. vm_compute. done. Qed.



(** An instance: the document of [TestParseMainManifestWorkWithCertificate]. *)
Lemma parseMainManifestWork_certificate_witness :
  exists result,
    parseMainManifestWork mainWithCertificate = (Some result, None) /\
    Result_Certificate result
    = Some {| Cert_Ready := None; Cert_NotAfter := zeroTime;
              Cert_RenewalTime := zeroTime; Cert_DNSNames := [] |}.
Proof.
  decode_as H (Unmarshal_main mainWithCertificate).
  destruct (parseMainManifestWork_certificate _ _ H) as (result & Hr & Hc).
  exists result. split; [exact Hr|]. rewrite Hc. vm_compute. reflexivity.
Defined.

(** An instance: the document of [TestParseCertificate]. *)
Lemma parseCertificate_spec_witness :
  exists cs,
    parseCertificate certificate = (Some cs, None) /\
    Cert_Ready cs = Some true /\
    Cert_NotAfter cs = Rfc3339.Date_UTC 2026 5 7 12 0 0 /\
    Cert_RenewalTime cs = Rfc3339.Date_UTC 2026 4 7 12 0 0 /\
    Cert_DNSNames cs = ["*.apps.rosa.test-cluster.ake1.s3.devshift.org";
                        "*.test-id.rosa.test-cluster.ake1.s3.devshift.org"].
Proof.
  decode_as H (Unmarshal_cert certificate).
  destruct (proj1 (parseCertificate_spec certificate) _ H)
    as (cs & Hcs & Hdns & Hready & _ & Hafter & Hrenew).
  exists cs. split; [exact Hcs|].
  rewrite Hdns, Hready, Hafter, Hrenew. vm_compute. repeat split; reflexivity.
Defined.

(** An instance: a pool with an integer Replicas value and one with a
    string that is no number. *)
Lemma parseManifestWorkNodePools_decoded_witness :
  parseManifestWorkNodePools nodePools
  = ([ {| NodePool_Name := "test-workers"; NodePool_Replicas := 3;
          NodePool_Version := "4.21.0";
          NodePool_Conditions :=
            [ {| Condition_Type := "Ready"; Condition_Status := "True";
                 Condition_Reason := ""; Condition_Message := "";
                 Condition_LastTransitionTime := "" |} ] |};
       {| NodePool_Name := "more-workers"; NodePool_Replicas := 0;
          NodePool_Version := ""; NodePool_Conditions := [] |} ], None).
Proof.
  decode_as H (Unmarshal_pool nodePools).
  rewrite (parseManifestWorkNodePools_decoded _ _ H). vm_compute. reflexivity.
Defined.

(** An instance: the current version of the first entry survives, the
    desired version and the conditions are those of the second. *)
Lemma parseMainManifestWork_last_entry_witness :
  exists result,
    parseMainManifestWork twoHostedClusters = (Some result, None) /\
    map Condition_Type (Result_Conditions result) = ["Progressing"] /\
    Version_Current (Result_Version result) = "4.21.0" /\
    Version_Desired (Result_Version result) = "4.22.0" /\
    Version_AvailableUpdates (Result_Version result) = ["4.21.1"; "4.21.2"].
Proof.
  decode_as H (Unmarshal_main twoHostedClusters).
  destruct (parseMainManifestWork_last_entry _ _ H)
    as (result & Hr & Hconds & Hcur & Hdes & _ & _ & Hupd).
  exists result. split; [exact Hr|].
  rewrite Hconds, Hcur, Hdes, Hupd. vm_compute. repeat split; reflexivity.
Defined.

(** C10, as stated, fails for the available updates: the last HostedCluster
    entry whose extras have the key gives the empty string, and the field
    holds the list of the entry before it. *)
Lemma parseMainManifestWork_empty_updates_skipped :
  exists mw result,
    Unmarshal_main twoHostedClusters = Decoded mw /\
    lastSome (hostedExtra "Version-AvailableUpdates") (mainDoc_Manifests mw) = Some "" /\
    parseMainManifestWork twoHostedClusters = (Some result, None) /\
    Version_AvailableUpdates (Result_Version result) = ["4.21.1"; "4.21.2"].
Proof.
  eexists _, _. split; [vm_compute; reflexivity|].
  split; [vm_compute; reflexivity|]. split; vm_compute; reflexivity.
Qed.

End OnText.

(** * More properties *)

(** ** The flattener, continued *)

Lemma cut_hyphen_spec (s before after : string) :
  cut_hyphen s = Some (before, after) ->
  s = before +:+ String "-" after /\ countByte "-" before = 0%nat.
Proof.
  revert before. induction s as [|c s IH]; intros before; simpl; [done|].
  destruct (Ascii.eqb_spec c "-") as [->|Hc].
  - intros [= <- <-]. done.
  - destruct (cut_hyphen s) as [[b a]|]; [|done].
    intros [= <- <-]. destruct (IH b eq_refl) as [-> Hb]. split; [done|].
    simpl. destruct (Ascii.eqb_spec c "-"); [done|]. exact Hb.
Qed.

Lemma cut_hyphen_None (s : string) :
  cut_hyphen s = None <-> countByte "-" s = 0%nat.
Proof.
  induction s as [|c s IH]; simpl; [done|].
  destruct (Ascii.eqb_spec c "-") as [->|Hc]; [done|].
  destruct (cut_hyphen s) as [[b a]|].
  - split; [done|]. intros H. simpl in H. by apply IH in H.
  - split; [|done]. intros _. simpl. by apply IH.
Qed.

Lemma cut_hyphen_count (s before after : string) :
  cut_hyphen s = Some (before, after) ->
  countByte "-" s = S (countByte "-" after).
Proof.
  revert before. induction s as [|c s IH]; intros before; simpl; [done|].
  destruct (Ascii.eqb_spec c "-") as [->|Hc].
  - by intros [= <- <-].
  - destruct (cut_hyphen s) as [[b a]|]; [|done].
    intros [= <- <-]. simpl. by apply (IH b).
Qed.

Lemma fieldNames_no_hyphen (field : string) :
  field ∈ fieldNames -> countByte "-" field = 0%nat.
Proof.
  unfold fieldNames. rewrite !elem_of_cons, elem_of_nil.
  intros [->|[->|[->|[->|[]]]]]; reflexivity.
Qed.

Lemma conditionKey_two_hyphens (name : string) :
  (2 <= countByte "-" name)%nat -> conditionKey name = None.
Proof.
  intros H. unfold conditionKey.
  destruct (cut_hyphen name) as [[p f]|] eqn:E; [|done].
  apply cut_hyphen_count in E.
  destruct (bool_decide_reflect (f ∈ fieldNames)) as [Hf|]; [|done].
  apply fieldNames_no_hyphen in Hf. lia.
Qed.

Lemma conditionKey_type (name p f : string) :
  conditionKey name = Some (p, f) ->
  name = p +:+ String "-" f /\ countByte "-" p = 0%nat /\ p <> "Version" /\ f ∈ fieldNames.
Proof.
  intros H. pose proof (conditionKey_field _ _ _ H) as Hf.
  unfold conditionKey in H. destruct (cut_hyphen name) as [[a b]|] eqn:E; [|done].
  destruct (bool_decide (b ∈ fieldNames)); simpl in H; [|done].
  destruct (bool_decide_reflect (a ∈ excludedPrefixes)) as [|Hex]; simpl in H; [done|].
  injection H as <- <-. apply cut_hyphen_spec in E as [-> Hp].
  repeat split; try done. intros ->. apply Hex. by left.
Qed.

(** Lookup in the extras, by name. *)
Lemma parseFeedbackValues_extras_named (values : list FeedbackValue) (name : string) :
  snd (parseFeedbackValues values) !! name =
  match conditionKey name with
  | Some _ => None
  | None => lastSome (namedValue name) values
  end.
Proof.
  rewrite parseFeedbackValues_extras.
  destruct (conditionKey name) as [[p f]|] eqn:E.
  - apply lastSome_None. intros fv _. unfold extraOf.
    destruct (conditionKey (FeedbackValue_Name fv)) eqn:E'; [done|].
    destruct (String.eqb_spec (FeedbackValue_Name fv) name) as [Heq|]; [|done].
    rewrite Heq in E'. congruence.
  - apply lastSome_ext. intros fv. by apply extraOf_unhyphenated.
Qed.

(** X2. No entry of the input is lost: an entry whose name reads as a
    condition field shows in a returned condition of its type and not in
    the extras; every other entry shows in the extras under its name. *)
Theorem parseFeedbackValues_covers_input (values : list FeedbackValue) (fv : FeedbackValue) :
  fv ∈ values ->
  let result := parseFeedbackValues values in
  match conditionTypeOf fv with
  | Some t =>
      t ∈ map Condition_Type (fst result) /\ snd result !! FeedbackValue_Name fv = None
  | None => is_Some (snd result !! FeedbackValue_Name fv)
  end.
Proof.
  intros Hin. cbv zeta. rewrite parseFeedbackValues_extras_named.
  unfold conditionTypeOf.
  destruct (conditionKey (FeedbackValue_Name fv)) as [[p f]|] eqn:E;
    cbn -[parseFeedbackValues].
  - split; [|done]. rewrite parseFeedbackValues_types, firstAppearances_elem.
    apply list_elem_of_omap. exists fv. split; [done|].
    unfold conditionTypeOf. by rewrite E.
  - destruct (lastSome _ values) eqn:E'; [done|].
    rewrite lastSome_None in E'. specialize (E' fv Hin).
    unfold namedValue in E'. by rewrite String.eqb_refl in E'.
Qed.

(** X3. A name with two or more hyphens, such as that of a field of a
    condition type that has a hyphen in it, is never read as a condition
    field: the entry goes to the extras under its whole name. *)
Theorem parseFeedbackValues_hyphenated_type (values : list FeedbackValue)
    (fv : FeedbackValue) :
  fv ∈ values ->
  (2 <= countByte "-" (FeedbackValue_Name fv))%nat ->
  conditionTypeOf fv = None /\
  is_Some (snd (parseFeedbackValues values) !! FeedbackValue_Name fv) /\
  snd (parseFeedbackValues values) !! FeedbackValue_Name fv
    = lastSome (namedValue (FeedbackValue_Name fv)) values.
Proof.
  intros Hin H2. pose proof (conditionKey_two_hyphens _ H2) as E.
  rewrite parseFeedbackValues_extras_named, E. unfold conditionTypeOf. rewrite E.
  split; [done|]. split; [|done].
  destruct (lastSome _ values) eqn:E'; [done|].
  rewrite lastSome_None in E'. specialize (E' fv Hin).
  unfold namedValue in E'. by rewrite String.eqb_refl in E'.
Qed.

(** X4. The type of a returned condition has no hyphen in it and is not
    Version: whatever the input, no version field is taken for a
    condition. *)
Theorem parseFeedbackValues_condition_types (values : list FeedbackValue) :
  Forall (fun c => countByte "-" (Condition_Type c) = 0%nat /\ Condition_Type c <> "Version")
    (fst (parseFeedbackValues values)).
Proof.
  apply Forall_forall. intros c Hc.
  assert (Condition_Type c ∈ map Condition_Type (fst (parseFeedbackValues values))) as Ht.
  { apply list_elem_of_In, in_map, list_elem_of_In, Hc. }
  rewrite parseFeedbackValues_types, firstAppearances_elem in Ht.
  apply list_elem_of_omap in Ht as (fv & _ & Hfv). unfold conditionTypeOf in Hfv.
  destruct (conditionKey (FeedbackValue_Name fv)) as [[p f]|] eqn:E; [|done].
  injection Hfv as ->. by apply conditionKey_type in E as (_ & ? & ? & _).
Qed.

Lemma firstAppearances_length (l : list string) :
  (length (firstAppearances l) <= length l)%nat.
Proof.
  induction l as [|x l IH]; simpl; [done|].
  pose proof (length_filter (fun y => y <> x) (firstAppearances l)). lia.
Qed.

Lemma firstAppearances_app (l1 l2 : list string) :
  firstAppearances (l1 ++ l2)
  = firstAppearances l1 ++ filter (fun y => y ∉ l1) (firstAppearances l2).
Proof.
  induction l2 as [|x l2 IH] using rev_ind.
  - by rewrite !app_nil_r.
  - rewrite app_assoc, !firstAppearances_snoc, IH.
    destruct (decide (x ∈ l2)) as [H2|H2].
    + rewrite decide_True; [done|]. apply elem_of_app. by right.
    + rewrite filter_app. destruct (decide (x ∈ l1)) as [H1|H1].
      * rewrite decide_True by (apply elem_of_app; by left).
        rewrite filter_cons_False, filter_nil by tauto. by rewrite app_nil_r.
      * rewrite decide_False by (rewrite elem_of_app; tauto).
        rewrite filter_cons_True, filter_nil by done. by rewrite app_assoc.
Qed.

(** The names of the entries that go to the extras. *)
Lemma extras_dom (values : list FeedbackValue) :
  dom (snd (parseFeedbackValues values))
  = list_to_set (map FeedbackValue_Name
                   (filter (fun fv => conditionTypeOf fv = None) values)).
Proof.
  apply set_eq. intros k.
  rewrite elem_of_dom, parseFeedbackValues_extras, elem_of_list_to_set.
  rewrite <- not_eq_None_Some, lastSome_None. split.
  - intros Hk.
    destruct (decide (k ∈ map FeedbackValue_Name
                        (filter (fun fv => conditionTypeOf fv = None) values)))
      as [|Hnin]; [done|].
    exfalso. apply Hk. intros fv Hfv. unfold extraOf.
    destruct (conditionKey (FeedbackValue_Name fv)) eqn:E; [done|].
    destruct (String.eqb_spec (FeedbackValue_Name fv) k) as [Heq|]; [|done].
    exfalso. apply Hnin. subst k.
    apply list_elem_of_In, in_map, list_elem_of_In, list_elem_of_filter.
    split; [|done]. unfold conditionTypeOf. by rewrite E.
  - intros Hk Hnone.
    apply list_elem_of_In, in_map_iff in Hk as (fv & <- & Hfv).
    apply list_elem_of_In, list_elem_of_filter in Hfv as [Hty Hfv].
    specialize (Hnone fv Hfv). unfold extraOf, conditionTypeOf in *.
    destruct (conditionKey (FeedbackValue_Name fv)); [done|].
    by rewrite String.eqb_refl in Hnone.
Qed.


Lemma omap_filter_length {A B : Type} (f : A -> option B) (l : list A) :
  (length (omap f l) + length (filter (fun x => f x = None) l) = length l)%nat.
Proof.
  induction l as [|x l IH]; simpl; [done|].
  destruct (f x) eqn:E.
  - rewrite filter_cons_False by (rewrite E; done). simpl. f_equal. exact IH.
  - rewrite filter_cons_True by done. simpl. rewrite Nat.add_succ_r. f_equal. exact IH.
Qed.

(** X5. The output is no larger than the input: the conditions and the
    extras together number at most as many as the entries. *)
Theorem parseFeedbackValues_size (values : list FeedbackValue) :
  (length (fst (parseFeedbackValues values)) + size (snd (parseFeedbackValues values))
   <= length values)%nat.
Proof.
  rewrite <- size_dom, extras_dom.
  rewrite <- (length_map Condition_Type), parseFeedbackValues_types.
  pose proof (firstAppearances_length (omap conditionTypeOf values)) as H1.
  pose proof (omap_filter_length conditionTypeOf values) as H2.
  set (names := map FeedbackValue_Name _).
  assert (size (list_to_set names : gset string) <= length names)%nat as H3.
  { replace (list_to_set names : gset string) with (list_to_set (remove_dups names) : gset string).
    - rewrite size_list_to_set by apply NoDup_remove_dups.
      clear. induction names as [|x l IH]; simpl; [done|].
      destruct (decide_rel elem_of x l); simpl; lia.
    - apply set_eq. intros k. by rewrite !elem_of_list_to_set, elem_of_remove_dups. }
  subst names. rewrite length_map in H3. lia.
Qed.

(** X6. Feeding more entries: the conditions of the entries read so far
    keep their places (their types stay a prefix of the types returned),
    and an extra of a later entry replaces an earlier one of the same
    name. *)
Theorem parseFeedbackValues_app (values more : list FeedbackValue) :
  map Condition_Type (fst (parseFeedbackValues values))
    `prefix_of` map Condition_Type (fst (parseFeedbackValues (values ++ more))) /\
  snd (parseFeedbackValues (values ++ more))
    = snd (parseFeedbackValues more) ∪ snd (parseFeedbackValues values).
Proof.
  split.
  - rewrite !parseFeedbackValues_types, omap_app, firstAppearances_app.
    by eexists.
  - apply map_eq. intros k.
    rewrite lookup_union, !parseFeedbackValues_extras, lastSome_app.
    by destruct (lastSome _ more), (lastSome _ values).
Qed.

(** ** Splitting and joining *)

Lemma append_nil_r (s : string) : s +:+ "" = s.
Proof.
  induction s as [|c s IH]; [done|].
  change (String c (s +:+ "") = String c s). by f_equal.
Qed.

Lemma rev_app_append (a b r : string) :
  String.rev_app a b +:+ r = String.rev_app a (b +:+ r).
Proof. revert b. induction a as [|c a IH]; intros b; simpl; [done|]. apply IH. Qed.

Lemma countByte_append (c : ascii) (a b : string) :
  countByte c (a +:+ b) = (countByte c a + countByte c b)%nat.
Proof.
  induction a as [|d a IH]; [done|].
  change (String d a +:+ b) with (String d (a +:+ b)). simpl. rewrite IH. lia.
Qed.

Lemma countByte_rev_app (c : ascii) (a b : string) :
  countByte c (String.rev_app a b) = (countByte c a + countByte c b)%nat.
Proof.
  revert b. induction a as [|d a IH]; intros b; simpl; [done|].
  rewrite IH. simpl. lia.
Qed.

Lemma Split_byte_go_cons (sep : ascii) (cur s : string) :
  exists x l, Split_byte_go sep cur s = x :: l.
Proof.
  revert cur. induction s as [|c s IH]; intros cur; simpl; [by eexists _, _|].
  destruct (Ascii.eqb c sep); [by eexists _, _|]. apply IH.
Qed.

(** Joining the fields gives the text back. *)
Lemma Join_Split_byte_go (sep : ascii) (cur s : string) :
  Join (Split_byte_go sep cur s) (String sep "") = String.rev cur +:+ s.
Proof.
  revert cur. induction s as [|c s IH]; intros cur; simpl.
  - by rewrite append_nil_r.
  - destruct (Ascii.eqb_spec c sep) as [->|Hc].
    + destruct (Split_byte_go_cons sep "" s) as (x & l & E).
      specialize (IH ""). rewrite E in IH |- *.
      change (Join (String.rev cur :: x :: l) (String sep ""))
        with (String.rev cur +:+ String sep "" +:+ Join (x :: l) (String sep "")).
      by rewrite IH.
    + rewrite IH. unfold String.rev. simpl. by rewrite !rev_app_append.
Qed.

Lemma Split_byte_go_length (sep : ascii) (cur s : string) :
  length (Split_byte_go sep cur s) = S (countByte sep s).
Proof.
  revert cur. induction s as [|c s IH]; intros cur; simpl; [done|].
  destruct (Ascii.eqb c sep); simpl; by rewrite IH.
Qed.

Lemma Split_byte_go_fields (sep : ascii) (cur s : string) :
  countByte sep cur = 0%nat ->
  Forall (fun x => countByte sep x = 0%nat) (Split_byte_go sep cur s).
Proof.
  revert cur. induction s as [|c s IH]; intros cur Hcur; simpl.
  - constructor; [|constructor]. unfold String.rev. rewrite countByte_rev_app. simpl. lia.
  - destruct (Ascii.eqb c sep) eqn:E.
    + constructor; [|by apply IH].
      unfold String.rev. rewrite countByte_rev_app. simpl. lia.
    + apply IH. simpl. rewrite E. exact Hcur.
Qed.

Lemma Split_comma_byte (cur s : string) :
  Split_comma_go cur s = Split_byte_go "," cur s.
Proof.
  revert cur. induction s as [|c s IH]; intros cur; simpl; [done|].
  by rewrite !IH.
Qed.

Section MoreParserProperties.

Context {rt : Runtime}.

(** *** The main document, continued *)

Lemma mainStep_other (st : mainState) (m : manifest) :
  mainKind m = false -> mainStep st m = st.
Proof.
  unfold mainKind, kindIs, mainStep. intros H.
  apply orb_false_iff in H as [-> ->]. done.
Qed.

Lemma mainStep_fold_filter (ms : list manifest) (st : mainState) :
  fold_left mainStep ms st
  = fold_left mainStep (filter (fun m => mainKind m = true) ms) st.
Proof.
  revert st. induction ms as [|m ms IH]; intros st; [done|].
  destruct (mainKind m) eqn:E.
  - rewrite filter_cons_True by done. simpl. apply IH.
  - rewrite filter_cons_False by (rewrite E; done). simpl.
    rewrite mainStep_other by done. apply IH.
Qed.

(** X7. [parseMainManifestWork] reads the management-cluster label and the
    manifest entries of kind HostedCluster and Certificate, and nothing
    else: two documents that agree on these give the same result. *)
Theorem parseMainManifestWork_reads_only (jsonStr jsonStr' : string) (mw mw' : mainDoc) :
  Unmarshal_main jsonStr = Decoded mw ->
  Unmarshal_main jsonStr' = Decoded mw' ->
  mainDoc_Metadata_Labels mw !! managementClusterLabel
    = mainDoc_Metadata_Labels mw' !! managementClusterLabel ->
  filter (fun m => mainKind m = true) (mainDoc_Manifests mw)
    = filter (fun m => mainKind m = true) (mainDoc_Manifests mw') ->
  parseMainManifestWork jsonStr = parseMainManifestWork jsonStr'.
Proof.
  intros H H' Hl Hm. unfold parseMainManifestWork, index_string.
  rewrite H, H', Hl.
  by rewrite (mainStep_fold_filter (mainDoc_Manifests mw)), Hm, <- mainStep_fold_filter.
Qed.

(** X8. The available updates are the fields of the extra between its
    commas: one more than it has commas, none with a comma in it (an empty
    field stays, as an empty version), and joined by commas they give the
    extra back. *)
Theorem parseMainManifestWork_available_updates (jsonStr : string) (mw : mainDoc)
    (v : string) :
  Unmarshal_main jsonStr = Decoded mw ->
  lastSome (hostedNonEmptyExtra "Version-AvailableUpdates") (mainDoc_Manifests mw) = Some v ->
  exists result,
    parseMainManifestWork jsonStr = (Some result, None) /\
    let updates := Version_AvailableUpdates (Result_Version result) in
    Join updates "," = v /\
    length updates = S (countByte "," v) /\
    Forall (fun u => countByte "," u = 0%nat) updates.
Proof.
  intros H Hv. unfold parseMainManifestWork. rewrite H.
  eexists. split; [reflexivity|]. cbv zeta. simpl.
  destruct (mainStep_fold_fields (mainDoc_Manifests mw) mainInit)
    as (_ & _ & _ & _ & _ & ->).
  rewrite Hv. simpl. unfold Split_comma. rewrite Split_comma_byte.
  split; [apply (Join_Split_byte_go "," "" v)|].
  split; [apply Split_byte_go_length|by apply Split_byte_go_fields].
Qed.

(** *** Worker-pool documents, continued *)

Lemma namedValue_entryNamed (name : string) (values : list FeedbackValue) :
  lastSome (namedValue name) values = feedbackVal <$> lastSome (entryNamed name) values.
Proof.
  induction values as [|fv values IH]; simpl; [done|].
  rewrite IH. destruct (lastSome (entryNamed name) values); simpl; [done|].
  unfold namedValue, entryNamed. by destruct (String.eqb _ name).
Qed.

(** X9. A NodePool entry whose Replicas value (the last entry of that
    name) is of integer type reports that integer as its replica count. *)
Theorem parseManifestWorkNodePools_integer_replicas (jsonStr : string) (mw : poolDoc)
    (i : nat) (m : manifest) (fv : FeedbackValue) :
  Unmarshal_pool jsonStr = Decoded mw ->
  filter (fun m => kindIs "NodePool" m = true) (poolDoc_Manifests mw) !! i = Some m ->
  lastSome (entryNamed "Replicas") (manifest_StatusFeedback_Values m) = Some fv ->
  FieldValue_Type (FeedbackValue_FieldValue fv) = "Integer" ->
  is_int (FieldValue_Integer (FeedbackValue_FieldValue fv)) = true ->
  exists np,
    fst (parseManifestWorkNodePools jsonStr) !! i = Some np /\
    NodePool_Name np = ResourceMeta_Name (manifest_ResourceMeta m) /\
    NodePool_Replicas np = FieldValue_Integer (FeedbackValue_FieldValue fv).
Proof.
  intros H Hm Hfv Hty Hint. unfold parseManifestWorkNodePools. rewrite H. simpl.
  rewrite nodePoolStep_fold. simpl.
  exists (nodePoolSpec m). split.
  - change (map nodePoolSpec ?l) with (nodePoolSpec <$> l).
    by rewrite list_lookup_fmap, Hm.
  - split; [done|]. unfold nodePoolSpec. simpl.
    rewrite namedValue_entryNamed, Hfv. simpl.
    unfold feedbackVal. rewrite Hty. simpl. by rewrite Atoi_Sprintf_d.
Qed.

End MoreParserProperties.

(** ** The aggregator, continued *)

Lemma relevantResources_lookup (resources : gmap string string) (key : string) :
  relevantKey key = true -> relevantResources resources !! key = resources !! key.
Proof.
  intros H. unfold relevantResources. apply option_eq. intros v.
  rewrite map_lookup_filter_Some. simpl. tauto.
Qed.

Lemma relevantResources_order (resources : gmap string string)
    (order : list (string * string)) :
  rangeOrder resources order ->
  rangeOrder (relevantResources resources)
    (filter (fun kv => relevantKey (fst kv) = true) order).
Proof.
  unfold rangeOrder, relevantResources. intros ->.
  rewrite map_filter_alt. symmetry. apply map_to_list_to_map.
  eapply NoDup_fmap_fst.
  - intros k v1 v2 [_ H1%elem_of_map_to_list]%list_elem_of_filter
      [_ H2%elem_of_map_to_list]%list_elem_of_filter. congruence.
  - apply NoDup_filter, NoDup_map_to_list.
Qed.

Lemma collectManifestWorkKeys_relevant (order : list (string * string)) :
  collectManifestWorkKeys (filter (fun kv => relevantKey (fst kv) = true) order)
  = collectManifestWorkKeys order.
Proof.
  unfold collectManifestWorkKeys.
  induction order as [|[k v] order IH]; [done|].
  destruct (relevantKey k) eqn:E.
  - rewrite filter_cons_True by done. rewrite !fmap_cons. simpl.
    destruct (HasPrefix k "manifest_work-") eqn:E'.
    + rewrite !filter_cons_True by done. by rewrite IH.
    + rewrite !filter_cons_False by (by rewrite E'). exact IH.
  - rewrite filter_cons_False by (simpl; by rewrite E). rewrite fmap_cons. simpl.
    rewrite filter_cons_False; [exact IH|].
    unfold relevantKey in E. apply orb_false_iff in E as [-> _]. done.
Qed.

Lemma firstCertificate_relevant (order : list (string * string)) :
  firstCertificate (filter (fun kv => relevantKey (fst kv) = true) order)
  = firstCertificate order.
Proof.
  unfold firstCertificate. f_equal.
  induction order as [|[k v] order IH]; [done|].
  destruct (relevantKey k) eqn:E.
  - rewrite filter_cons_True by done.
    destruct (HasPrefix k "certificate-") eqn:E'.
    + rewrite !filter_cons_True by done. by rewrite IH.
    + rewrite !filter_cons_False by (simpl; by rewrite E'). exact IH.
  - rewrite filter_cons_False by (simpl; by rewrite E).
    rewrite filter_cons_False; [exact IH|]. simpl.
    unfold relevantKey in E. apply orb_false_iff in E as [_ ->]. done.
Qed.

Lemma manifestWorkKeysOf_order (resources : gmap string string)
    (order : list (string * string)) :
  rangeOrder resources order ->
  sort_Strings (collectManifestWorkKeys order) = manifestWorkKeysOf resources.
Proof.
  intros H. apply sort_Strings_Permutation, collectManifestWorkKeys_Permutation, H.
Qed.

Lemma manifestWorkKeysOf_Sorted (resources : gmap string string) :
  Sorted String.le (manifestWorkKeysOf resources).
Proof. apply Sorted_merge_sort. apply _. Qed.

Lemma manifestWorkKeysOf_NoDup (resources : gmap string string) :
  NoDup (manifestWorkKeysOf resources).
Proof.
  unfold manifestWorkKeysOf, sort_Strings, collectManifestWorkKeys.
  rewrite merge_sort_Permutation. apply NoDup_filter, NoDup_fst_map_to_list.
Qed.

Lemma manifestWorkKeysOf_elem (resources : gmap string string) (key : string) :
  key ∈ manifestWorkKeysOf resources <->
  HasPrefix key "manifest_work-" = true /\ is_Some (resources !! key).
Proof.
  unfold manifestWorkKeysOf.
  rewrite (manifestWorkKeys_elem resources (map_to_list resources)) by (unfold rangeOrder; reflexivity).
  unfold is_Some. tauto.
Qed.

Section MoreAggregatorProperties.

Context {rt : Runtime}.

Lemma syncLoop_result (resources : gmap string string) (keys : list string)
    (acc l : list ManifestWorkSync) :
  syncLoop resources keys acc = inl l ->
  l = acc ++ map (fun key => fst (parseManifestWorkSyncStatus (index_string resources key)))
             keys.
Proof.
  revert acc. induction keys as [|k keys IH]; intros acc; simpl.
  - intros [= <-]. by rewrite app_nil_r.
  - destruct (parseManifestWorkSyncStatus (index_string resources k)) as [mws [e|]];
      [done|].
    intros H. apply IH in H. by rewrite <- app_assoc in H.
Qed.

Lemma nodePoolLoop_result (resources : gmap string string) (keys : list string)
    (acc l : list NodePoolStatus) :
  nodePoolLoop resources keys acc = inl l ->
  l = acc ++ concat (map (fun key =>
                       fst (parseManifestWorkNodePools (index_string resources key))) keys).
Proof.
  revert acc. induction keys as [|k keys IH]; intros acc; simpl.
  - intros [= <-]. by rewrite app_nil_r.
  - destruct (parseManifestWorkNodePools (index_string resources k)) as [nps [e|]];
      [done|].
    intros H. apply IH in H. by rewrite <- app_assoc in H.
Qed.

Lemma syncLoop_ext (resources resources' : gmap string string) (keys : list string)
    (acc : list ManifestWorkSync) :
  (forall key, key ∈ keys -> resources !! key = resources' !! key) ->
  syncLoop resources keys acc = syncLoop resources' keys acc.
Proof.
  revert acc. induction keys as [|k keys IH]; intros acc H; simpl; [done|].
  unfold index_string. rewrite (H k) by (by left).
  destruct (parseManifestWorkSyncStatus _) as [mws [e|]]; [done|].
  apply IH. intros key Hkey. apply H. by right.
Qed.

Lemma nodePoolLoop_ext (resources resources' : gmap string string) (keys : list string)
    (acc : list NodePoolStatus) :
  (forall key, key ∈ keys -> resources !! key = resources' !! key) ->
  nodePoolLoop resources keys acc = nodePoolLoop resources' keys acc.
Proof.
  revert acc. induction keys as [|k keys IH]; intros acc H; simpl; [done|].
  unfold index_string. rewrite (H k) by (by left).
  destruct (parseManifestWorkNodePools _) as [nps [e|]]; [done|].
  apply IH. intros key Hkey. apply H. by right.
Qed.

(** The first key whose sync status does not parse ends the loop. *)
Lemma syncLoop_first_failure (resources : gmap string string) (l1 l2 : list string)
    (key : string) (acc : list ManifestWorkSync) (inner : error) :
  (forall k, k ∈ l1 -> snd (parseManifestWorkSyncStatus (index_string resources k)) = None) ->
  snd (parseManifestWorkSyncStatus (index_string resources key)) = Some inner ->
  syncLoop resources (l1 ++ key :: l2) acc
  = inr ("failed to parse ManifestWork sync status for " +:+ key +:+ ": " +:+ inner).
Proof.
  revert acc. induction l1 as [|k l1 IH]; intros acc Hok Hbad; simpl.
  - destruct (parseManifestWorkSyncStatus (index_string resources key)) as [mws [e|]];
      simpl in Hbad; [|done].
    injection Hbad as ->. unfold Errorf_w. by rewrite !append_assoc.
  - pose proof (Hok k ltac:(by left)) as Hk.
    destruct (parseManifestWorkSyncStatus (index_string resources k)) as [mws [e|]];
      simpl in Hk; [done|].
    apply IH; [|done]. intros k' Hk'. apply Hok. by right.
Qed.

Lemma parseMainManifestWork_shape (jsonStr : string) :
  (exists result, parseMainManifestWork jsonStr = (Some result, None)) \/
  (exists err, parseMainManifestWork jsonStr = (None, Some err)).
Proof.
  unfold parseMainManifestWork. destruct (Unmarshal_main jsonStr); [left|right]; by eexists.
Qed.

Lemma parseCertificate_shape (jsonStr : string) :
  (exists cs, parseCertificate jsonStr = (Some cs, None)) \/
  (exists err, parseCertificate jsonStr = (None, Some err)).
Proof.
  unfold parseCertificate. destruct (Unmarshal_cert jsonStr); [left|right]; by eexists.
Qed.

(** What a snapshot is made of. *)
Lemma parseLiveResources_snapshot (resources : gmap string string) (clusterID : string)
    (order1 order2 : list (string * string)) (status : HCPStatus) :
  parseLiveResources order1 order2 resources clusterID = (Some status, None) ->
  let keys := sort_Strings (collectManifestWorkKeys order1) in
  ManifestWorks status
    = map (fun key => fst (parseManifestWorkSyncStatus (index_string resources key))) keys /\
  NodePools status
    = concat (map (fun key =>
                fst (parseManifestWorkNodePools (index_string resources key))) keys) /\
  ClusterID status = "" /\ ClusterName status = "" /\ ClusterState status = "" /\
  mainBlock resources ("manifest_work-" +:+ clusterID)
    = inl (HostedClusterConditions status, Version status, ManagementCluster status,
           APIServerCertificate status) /\
  match firstCertificate order2 with
  | Some (_, jsonStr) =>
      exists cs, parseCertificate jsonStr = (Some cs, None) /\
                 IngressCertificate status = Some cs
  | None => IngressCertificate status = None
  end.
Proof.
  unfold parseLiveResources. cbv zeta.
  destruct (syncLoop _ _ _) as [mws|] eqn:E1; [|done].
  destruct (mainBlock _ _) as [[[[conds ver] mgmt] api]|] eqn:E2; [|done].
  destruct (nodePoolLoop _ _ _) as [nps|] eqn:E3; [|done].
  rewrite certLoop_first.
  apply syncLoop_result in E1. apply nodePoolLoop_result in E3. simpl in E1, E3.
  destruct (firstCertificate order2) as [[ck cj]|].
  - destruct (parseCertificate_shape cj) as [[cs Hcs]|[err Herr]].
    + rewrite Hcs. intros [= <-]. simpl. repeat split; try done. by exists cs.
    + rewrite Herr. done.
  - intros [= <-]. simpl. repeat split; done.
Qed.

(** X10. In a snapshot the sync summaries stand in the ascending order of
    the manifest_work keys, one per key, and the node pools are those of
    the same documents in the same order; the identity of the cluster is
    left empty, for the caller to fill. *)
Theorem parseLiveResources_sorted_documents (resources : gmap string string)
    (clusterID : string) (status : HCPStatus) :
  mayReturn resources clusterID (Some status, None) ->
  let keys := manifestWorkKeysOf resources in
  Sorted String.le keys /\ NoDup keys /\
  (forall key, key ∈ keys <->
     HasPrefix key "manifest_work-" = true /\ is_Some (resources !! key)) /\
  ManifestWorks status
    = map (fun key => fst (parseManifestWorkSyncStatus (index_string resources key))) keys /\
  NodePools status
    = concat (map (fun key =>
                fst (parseManifestWorkNodePools (index_string resources key))) keys) /\
  ClusterID status = "" /\ ClusterName status = "" /\ ClusterState status = "".
Proof.
  intros (o1 & o2 & H1 & H2 & Hr). cbv zeta.
  apply parseLiveResources_snapshot in Hr. cbv zeta in Hr.
  rewrite (manifestWorkKeysOf_order resources o1 H1) in Hr.
  destruct Hr as (Hm & Hn & Hid & Hname & Hstate & _).
  split; [apply manifestWorkKeysOf_Sorted|].
  split; [apply manifestWorkKeysOf_NoDup|].
  split; [apply manifestWorkKeysOf_elem|]. done.
Qed.

(** X11. The control-plane part of a snapshot comes from the document
    under manifest_work-<clusterID> alone: it is what [parseMainManifestWork]
    returns for that document, and when there is no such document the
    conditions are empty, the version and the management cluster are
    empty, and there is no API-server certificate. *)
Theorem parseLiveResources_main_document (resources : gmap string string)
    (clusterID : string) (status : HCPStatus) :
  mayReturn resources clusterID (Some status, None) ->
  match resources !! ("manifest_work-" +:+ clusterID) with
  | Some jsonStr =>
      exists result,
        parseMainManifestWork jsonStr = (Some result, None) /\
        HostedClusterConditions status = Result_Conditions result /\
        Version status = Result_Version result /\
        ManagementCluster status = Result_MgmtCluster result /\
        APIServerCertificate status = Result_Certificate result
  | None =>
      HostedClusterConditions status = [] /\ Version status = zeroVersionInfo /\
      ManagementCluster status = "" /\ APIServerCertificate status = None
  end.
Proof.
  intros (o1 & o2 & H1 & H2 & Hr).
  apply parseLiveResources_snapshot in Hr as (_ & _ & _ & _ & _ & Hmain & _).
  unfold mainBlock in Hmain.
  destruct (resources !! _) as [jsonStr|]; [|by injection Hmain as <- <- <- <-].
  destruct (parseMainManifestWork_shape jsonStr) as [[result Hres]|[err Herr]].
  - rewrite Hres in Hmain. injection Hmain as <- <- <- <-.
    exists result. repeat split; try done. by destruct (Result_Certificate result).
  - by rewrite Herr in Hmain.
Qed.

(** X12. A snapshot has an ingress certificate exactly when the mapping
    has a key with the certificate prefix, and it is then what
    [parseCertificate] returns for a document under such a key. *)
Theorem parseLiveResources_ingress_certificate (resources : gmap string string)
    (clusterID : string) (status : HCPStatus) :
  mayReturn resources clusterID (Some status, None) ->
  (IngressCertificate status = None <->
   forall key, is_Some (resources !! key) -> HasPrefix key "certificate-" = false) /\
  (forall cs, IngressCertificate status = Some cs ->
     exists key jsonStr,
       resources !! key = Some jsonStr /\ HasPrefix key "certificate-" = true /\
       parseCertificate jsonStr = (Some cs, None)).
Proof.
  intros (o1 & o2 & H1 & H2 & Hr).
  apply parseLiveResources_snapshot in Hr as (_ & _ & _ & _ & _ & _ & Hcert).
  destruct (firstCertificate o2) as [[ck cj]|] eqn:E.
  - destruct Hcert as (cs & Hcs & Hing).
    destruct (firstCertificate_elem resources o2 ck cj H2 E) as [Hp Hv].
    split.
    + split; [by rewrite Hing|]. intros Hall.
      specialize (Hall ck ltac:(by eexists)). congruence.
    + intros cs' Hcs'. exists ck, cj. rewrite Hing in Hcs'. by injection Hcs' as <-.
  - split; [|by rewrite Hcert]. split; [|done]. intros _ key [v Hv].
    destruct (HasPrefix key "certificate-") eqn:Hp; [|done]. exfalso.
    unfold firstCertificate in E. apply head_None in E.
    assert ((key, v) ∈ filter (fun kv : string * string =>
                                 HasPrefix kv.1 "certificate-" = true) o2) as Hin.
    { apply list_elem_of_filter. split; [done|].
      by apply (rangeOrder_lookup resources o2). }
    rewrite E in Hin. by apply elem_of_nil in Hin.
Qed.

(** X13. When the sync status of a manifest_work document does not parse,
    every run fails, and with the error of the least such key: neither the
    other documents nor the iteration order of the map change the
    error. *)
Theorem parseLiveResources_least_failing_key (resources : gmap string string)
    (clusterID : string) (r : option HCPStatus * option error)
    (key jsonStr : string) (inner : error) :
  mayReturn resources clusterID r ->
  resources !! key = Some jsonStr ->
  HasPrefix key "manifest_work-" = true ->
  snd (parseManifestWorkSyncStatus jsonStr) = Some inner ->
  (forall key' jsonStr',
     resources !! key' = Some jsonStr' -> HasPrefix key' "manifest_work-" = true ->
     String.le key' key -> key' <> key ->
     snd (parseManifestWorkSyncStatus jsonStr') = None) ->
  r = (None, Some ("failed to parse ManifestWork sync status for " +:+ key +:+ ": " +:+ inner)).
Proof.
  intros (o1 & o2 & H1 & H2 & <-) Hkey Hp Hbad Hless.
  unfold parseLiveResources. cbv zeta.
  rewrite (manifestWorkKeysOf_order resources o1 H1).
  assert (key ∈ manifestWorkKeysOf resources) as Hin
    by (apply manifestWorkKeysOf_elem; eauto).
  apply list_elem_of_split in Hin as (l1 & l2 & Hsplit).
  pose proof (manifestWorkKeysOf_NoDup resources) as Hnd.
  pose proof (Sorted_StronglySorted String.le _ (manifestWorkKeysOf_Sorted resources)) as Hss.
  rewrite Hsplit in *.
  rewrite (syncLoop_first_failure resources l1 l2 key [] inner); [done| |].
  - intros k Hk.
    assert (k ∈ manifestWorkKeysOf resources) as Hk'
      by (rewrite Hsplit; apply elem_of_app; by left).
    apply manifestWorkKeysOf_elem in Hk' as (Hkp & v & Hv).
    unfold index_string. rewrite Hv. simpl. apply (Hless k v Hv Hkp).
    + eapply (StronglySorted_app_1_elem_of String.le l1 (key :: l2)); [done..|by left].
    + intros ->. apply NoDup_app in Hnd as (_ & Hdisj & _).
      apply (Hdisj key Hk). by left.
  - unfold index_string. by rewrite Hkey.
Qed.

(** The result on a mapping is the result on its relevant part, visited in
    the same order. *)
Lemma parseLiveResources_relevant (resources : gmap string string) (clusterID : string)
    (order1 order2 : list (string * string)) :
  parseLiveResources order1 order2 resources clusterID
  = parseLiveResources
      (filter (fun kv => relevantKey (fst kv) = true) order1)
      (filter (fun kv => relevantKey (fst kv) = true) order2)
      (relevantResources resources) clusterID.
Proof.
  unfold parseLiveResources. cbv zeta.
  rewrite collectManifestWorkKeys_relevant.
  set (keys := sort_Strings (collectManifestWorkKeys order1)).
  assert (forall key, key ∈ keys ->
            resources !! key = relevantResources resources !! key) as Hkeys.
  { intros key Hkey. symmetry. apply relevantResources_lookup.
    unfold keys, sort_Strings, collectManifestWorkKeys in Hkey.
    rewrite merge_sort_Permutation in Hkey.
    apply list_elem_of_filter in Hkey as [Hp _].
    unfold relevantKey. by rewrite Hp. }
  rewrite (syncLoop_ext resources (relevantResources resources)) by done.
  rewrite (nodePoolLoop_ext resources (relevantResources resources)) by done.
  assert (mainBlock resources ("manifest_work-" +:+ clusterID)
          = mainBlock (relevantResources resources) ("manifest_work-" +:+ clusterID)) as ->.
  { unfold mainBlock. rewrite relevantResources_lookup; [done|].
    unfold relevantKey, HasPrefix. by rewrite prefix_append. }
  destruct (syncLoop _ _ _); [|done].
  destruct (mainBlock _ _) as [[[[? ?] ?] ?]|]; [|done].
  destruct (nodePoolLoop _ _ _); [|done].
  by rewrite !certLoop_first, firstCertificate_relevant.
Qed.

(** X14. Documents under keys with neither prefix are ignored: the runs on
    a mapping return what the runs on the mapping without those documents
    return. *)
Theorem parseLiveResources_ignores_other_keys (resources : gmap string string)
    (clusterID : string) (r : option HCPStatus * option error) :
  mayReturn resources clusterID r <->
  mayReturn (relevantResources resources) clusterID r.
Proof.
  set (P := fun kv : string * string => relevantKey (fst kv) = true).
  split.
  - intros (o1 & o2 & H1 & H2 & <-).
    exists (filter P o1), (filter P o2).
    split; [by apply relevantResources_order|].
    split; [by apply relevantResources_order|].
    symmetry. apply parseLiveResources_relevant.
  - intros (o1 & o2 & H1 & H2 & <-).
    set (others := filter (fun kv => ~ P kv) (map_to_list resources)).
    assert (forall o, rangeOrder (relevantResources resources) o ->
              rangeOrder resources (o ++ others) /\ filter P (o ++ others) = o) as Hext.
    { intros o Ho.
      pose proof (relevantResources_order resources (map_to_list resources)
                    ltac:(unfold rangeOrder; reflexivity)) as Hrel.
      unfold rangeOrder in *. split.
      - rewrite Ho, <- Hrel. apply filter_app_complement.
      - rewrite filter_app.
        assert (filter P others = []) as ->.
        { unfold others. clear. induction (map_to_list resources) as [|x l IH]; [done|].
          destruct (decide (P x)).
          - rewrite (filter_cons_False (fun kv => ~ P kv)) by tauto. exact IH.
          - rewrite (filter_cons_True (fun kv => ~ P kv)) by done.
            rewrite filter_cons_False by done. exact IH. }
        rewrite app_nil_r.
        assert (Forall P o) as Hall.
        { apply Forall_forall. intros x Hx. rewrite Ho, <- Hrel in Hx.
          by apply list_elem_of_filter in Hx as [? _]. }
        clear -Hall. induction Hall as [|x l Hx _ IH]; [done|].
        rewrite filter_cons_True by done. by rewrite IH. }
    destruct (Hext o1 H1) as [Ho1 Hf1]. destruct (Hext o2 H2) as [Ho2 Hf2].
    exists (o1 ++ others), (o2 ++ others).
    split; [done|]. split; [done|].
    rewrite parseLiveResources_relevant. fold P. by rewrite Hf1, Hf2.
Qed.

End MoreAggregatorProperties.

(** ** The hive shard *)

Lemma Split_byte_go_field (sep : ascii) (cur pre rest : string) :
  countByte sep pre = 0%nat ->
  Split_byte_go sep cur (pre +:+ String sep rest)
  = (String.rev cur +:+ pre) :: Split_byte sep rest.
Proof.
  revert cur. induction pre as [|c pre IH]; intros cur H.
  - change ("" +:+ String sep rest) with (String sep rest). simpl.
    rewrite Ascii.eqb_refl. by rewrite append_nil_r.
  - change (String c pre +:+ String sep rest) with (String c (pre +:+ String sep rest)).
    simpl in *. destruct (Ascii.eqb c sep); [done|].
    rewrite IH by done. f_equal. unfold String.rev. simpl.
    by rewrite !rev_app_append.
Qed.

Lemma Split_byte_go_whole (sep : ascii) (cur s : string) :
  countByte sep s = 0%nat -> Split_byte_go sep cur s = [String.rev cur +:+ s].
Proof.
  revert cur. induction s as [|c s IH]; intros cur H; simpl in *.
  - by rewrite append_nil_r.
  - destruct (Ascii.eqb c sep); [done|]. rewrite IH by done.
    unfold String.rev. simpl. by rewrite !rev_app_append.
Qed.

(** A string with the separator splits at its first occurrence. *)
Lemma Split_byte_go_first (sep : ascii) (cur s : string) :
  countByte sep s <> 0%nat ->
  exists pre rest,
    s = pre +:+ String sep rest /\ countByte sep pre = 0%nat /\
    Split_byte_go sep cur s = (String.rev cur +:+ pre) :: Split_byte sep rest.
Proof.
  revert cur. induction s as [|c s IH]; intros cur H; simpl in *; [done|].
  destruct (Ascii.eqb c sep) eqn:E.
  - apply Ascii.eqb_eq in E as ->. exists "", s.
    split; [done|]. split; [done|]. by rewrite append_nil_r.
  - destruct (IH (String c cur) H) as (pre & rest & -> & Hpre & Hsplit).
    exists (String c pre), rest. split; [done|]. split; [simpl; by rewrite E|].
    rewrite Hsplit. f_equal. unfold String.rev. simpl. by rewrite !rev_app_append.
Qed.

Lemma Split_byte_second (sep : ascii) (pre h rest : string) :
  countByte sep pre = 0%nat -> countByte sep h = 0%nat ->
  Split_byte sep (pre +:+ String sep (h +:+ String sep rest))
  = pre :: h :: Split_byte sep rest.
Proof.
  intros Hpre Hh. unfold Split_byte.
  rewrite Split_byte_go_field by done. unfold Split_byte.
  by rewrite (Split_byte_go_field sep "" h) by done.
Qed.

Lemma Split_byte_length (sep : ascii) (s : string) :
  length (Split_byte sep s) = S (countByte sep s).
Proof. apply Split_byte_go_length. Qed.

Lemma shardNotParsed_ne (shard cluster : string) :
  shardNotParsed shard <> shardNotRetrieved cluster.
Proof. unfold shardNotParsed, shardNotRetrieved. simpl. discriminate. Qed.

Section HiveProperties.

Context (provisionShardServer : string -> option string * option error).

Lemma GetHiveShard_spec (cluster : string) :
  (exists shard, provisionShardServer cluster = (Some shard, None) /\ shard <> "" /\
                 GetHiveShard provisionShardServer cluster = (shard, None)) \/
  ((forall shard, provisionShardServer cluster = (Some shard, None) -> shard = "") /\
   GetHiveShard provisionShardServer cluster = ("", Some (shardNotRetrieved cluster))).
Proof.
  unfold GetHiveShard.
  destruct (provisionShardServer cluster) as [[server|] [err|]]; simpl;
    try (right; split; [intros ? [=]|done]).
  destruct (String.eqb server "") eqn:E.
  - apply String.eqb_eq in E as ->. right. split; [by intros ? [= <-]|done].
  - apply String.eqb_neq in E. left. by exists server.
Qed.

(** X15. [GetHiveCluster] succeeds exactly on a shard of six fields
    separated by dots, and returns the second field: the scheme, the host
    names and the port of the documented format are not checked, and the
    second field may be empty. *)
Theorem GetHiveCluster_second_field (cluster hive : string) :
  GetHiveCluster provisionShardServer cluster = (hive, None) <->
  exists pre rest,
    provisionShardServer cluster
      = (Some (pre +:+ String "." (hive +:+ String "." rest)), None) /\
    countByte "." pre = 0%nat /\ countByte "." hive = 0%nat /\
    countByte "." rest = 3%nat.
Proof.
  unfold GetHiveCluster. split.
  - destruct (GetHiveShard_spec cluster) as [(shard & Hs & Hne & ->)|[_ ->]]; [|done].
    pose proof (Split_byte_length "." shard) as Hlen.
    destruct (Nat.eqb_spec (length (Split_byte "." shard)) 6) as [H6|]; [|done].
    simpl. intros [= Hnth].
    destruct (Split_byte_go_first "." "" shard) as (pre & s1 & -> & Hpre & Hsplit1);
      [lia|].
    fold (Split_byte "." (pre +:+ String "." s1)) in Hsplit1.
    rewrite countByte_append in Hlen. simpl in Hlen.
    destruct (Split_byte_go_first "." "" s1) as (h & rest & -> & Hh & Hsplit2); [lia|].
    fold (Split_byte "." (h +:+ String "." rest)) in Hsplit2.
    rewrite Hsplit1, Hsplit2 in Hnth. simpl in Hnth. subst hive.
    exists pre, rest. split; [done|]. split; [done|]. split; [done|].
    rewrite countByte_append in Hlen. simpl in Hlen. lia.
  - intros (pre & rest & Hs & Hpre & Hh & Hrest).
    unfold GetHiveShard. rewrite Hs.
    set (shard := pre +:+ String "." (hive +:+ String "." rest)).
    assert (String.eqb shard "" = false) as ->.
    { apply String.eqb_neq. unfold shard. by destruct pre. }
    unfold shard. rewrite Split_byte_second by done. simpl.
    rewrite Split_byte_length, Hrest. done.
Qed.

(** X16. The two ways [GetHiveCluster] fails. It reports that the shard
    could not be retrieved when the request failed, gave no response or
    gave an empty server, and the error of the request is not passed on;
    it reports that the shard could not be parsed when the server does
    not have exactly five dots. *)
Theorem GetHiveCluster_failure (cluster : string) (err : error) :
  snd (GetHiveCluster provisionShardServer cluster) = Some err <->
  (err = shardNotRetrieved cluster /\
   forall shard, provisionShardServer cluster = (Some shard, None) -> shard = "") \/
  (exists shard,
     provisionShardServer cluster = (Some shard, None) /\ shard <> "" /\
     countByte "." shard <> 5%nat /\ err = shardNotParsed shard).
Proof.
  unfold GetHiveCluster.
  destruct (GetHiveShard_spec cluster) as [(shard & Hs & Hne & ->)|[Hnone ->]].
  - rewrite Split_byte_length.
    destruct (Nat.eqb_spec (S (countByte "." shard)) 6) as [H6|H6]; simpl.
    + split; [done|]. intros [[_ H]|(shard' & Hs' & _ & Hc & _)].
      * by specialize (H shard Hs).
      * rewrite Hs in Hs'. injection Hs' as <-. lia.
    + split.
      * intros [= <-]. right. exists shard. repeat split; try done. lia.
      * intros [[_ H]|(shard' & Hs' & _ & _ & ->)].
        -- by specialize (H shard Hs).
        -- rewrite Hs in Hs'. by injection Hs' as <-.
  - simpl. split.
    + intros [= <-]. by left.
    + intros [[-> _]|(shard & Hs & Hne & _)]; [done|]. by specialize (Hnone shard Hs).
Qed.

End HiveProperties.

(** ** The instance of a node *)

Lemma tagLoop_spec (tags : list (option ec2Tag)) (machineName : string) :
  tagLoop tags machineName
  = if forallb readableTag tags
    then Some (default machineName (lastSome nameTagValue tags))
    else None.
Proof.
  revert machineName. induction tags as [|[t|] tags IH]; intros machineName; simpl;
    [done| |done].
  destruct (Tag_Key t) as [key|]; [|done]. simpl.
  destruct (String.eqb key "Name").
  - destruct (Tag_Value t) as [value|]; [|done]. simpl.
    rewrite IH. destruct (forallb readableTag tags); [|done].
    by destruct (lastSome nameTagValue tags).
  - simpl. rewrite IH. destruct (forallb readableTag tags); [|done].
    by destruct (lastSome nameTagValue tags).
Qed.

Section NodeDataProperties.

Context (DescribeInstances : string -> option ec2DescribeInstancesOutput * option error).

(** X17. [getNodeAwsInstanceData] returns exactly when the request
    succeeds, the first instance of the first reservation has an instance
    id, every tag of that instance can be read, and the last tag with the
    key Name has a value that is not empty: it returns that value and
    that id. An earlier Name tag does not stand in for a last one whose
    value is empty. *)
Theorem getNodeAwsInstanceData_returns (node machineName awsInstanceID : string) :
  fst (getNodeAwsInstanceData DescribeInstances node)
    = Returns (machineName, awsInstanceID) <->
  exists ret reservation reservations instance instances,
    DescribeInstances node = (Some ret, None) /\
    Output_Reservations ret = Some reservation :: reservations /\
    Reservation_Instances reservation = Some instance :: instances /\
    Instance_InstanceId instance = Some awsInstanceID /\
    forallb readableTag (Instance_Tags instance) = true /\
    lastSome nameTagValue (Instance_Tags instance) = Some machineName /\
    machineName <> "".
Proof.
  unfold getNodeAwsInstanceData. split.
  - destruct (DescribeInstances node) as [[ret|] [err|]]; try done.
    destruct (Output_Reservations ret) as [|[reservation|] reservations] eqn:E1; try done.
    destruct (Reservation_Instances reservation) as [|[instance|] instances] eqn:E2;
      try done.
    destruct (Instance_InstanceId instance) as [id|] eqn:E3; [|done].
    rewrite tagLoop_spec.
    destruct (forallb readableTag (Instance_Tags instance)) eqn:E4; [|done].
    destruct (lastSome nameTagValue (Instance_Tags instance)) as [m|] eqn:E5; simpl;
      [|done].
    destruct (String.eqb m "") eqn:E6; [done|]. simpl. intros [= <- <-].
    apply String.eqb_neq in E6.
    by exists ret, reservation, reservations, instance, instances.
  - intros (ret & reservation & reservations & instance & instances &
            -> & -> & -> & -> & Htags & Hlast & Hne).
    rewrite tagLoop_spec, Htags, Hlast. simpl.
    apply String.eqb_neq in Hne. by rewrite Hne.
Qed.

End NodeDataProperties.

(** ** Which error the aggregator returns *)

Section ErrorPrecedence.

Context {rt : Runtime}.

Lemma syncLoop_all (resources : gmap string string) (keys : list string)
    (acc : list ManifestWorkSync) :
  (forall key, key ∈ keys ->
     snd (parseManifestWorkSyncStatus (index_string resources key)) = None) ->
  exists l, syncLoop resources keys acc = inl l.
Proof.
  revert acc. induction keys as [|k keys IH]; intros acc H; simpl; [by eexists|].
  pose proof (H k ltac:(by left)) as Hk.
  destruct (parseManifestWorkSyncStatus (index_string resources k)) as [mws [e|]];
    simpl in Hk; [done|].
  apply IH. intros key Hkey. apply H. by right.
Qed.

Lemma nodePoolLoop_all (resources : gmap string string) (keys : list string)
    (acc : list NodePoolStatus) :
  (forall key, key ∈ keys ->
     snd (parseManifestWorkNodePools (index_string resources key)) = None) ->
  exists l, nodePoolLoop resources keys acc = inl l.
Proof.
  revert acc. induction keys as [|k keys IH]; intros acc H; simpl; [by eexists|].
  pose proof (H k ltac:(by left)) as Hk.
  destruct (parseManifestWorkNodePools (index_string resources k)) as [nps [e|]];
    simpl in Hk; [done|].
  apply IH. intros key Hkey. apply H. by right.
Qed.

(** The first key whose node pools do not parse ends the loop. *)
Lemma nodePoolLoop_first_failure (resources : gmap string string) (l1 l2 : list string)
    (key : string) (acc : list NodePoolStatus) (inner : error) :
  (forall k, k ∈ l1 -> snd (parseManifestWorkNodePools (index_string resources k)) = None) ->
  snd (parseManifestWorkNodePools (index_string resources key)) = Some inner ->
  nodePoolLoop resources (l1 ++ key :: l2) acc
  = inr ("failed to parse NodePool from " +:+ key +:+ ": " +:+ inner).
Proof.
  revert acc. induction l1 as [|k l1 IH]; intros acc Hok Hbad; simpl.
  - destruct (parseManifestWorkNodePools (index_string resources key)) as [nps [e|]];
      simpl in Hbad; [|done].
    injection Hbad as ->. unfold Errorf_w. by rewrite !append_assoc.
  - pose proof (Hok k ltac:(by left)) as Hk.
    destruct (parseManifestWorkNodePools (index_string resources k)) as [nps [e|]];
      simpl in Hk; [done|].
    apply IH; [|done]. intros k' Hk'. apply Hok. by right.
Qed.

(** A parse that succeeds on every stored manifest work succeeds on every
    key of the sorted list. *)
Lemma manifestWorkKeysOf_all {A : Type} (resources : gmap string string)
    (parse : string -> A * option error) :
  (forall key jsonStr,
     resources !! key = Some jsonStr -> HasPrefix key "manifest_work-" = true ->
     snd (parse jsonStr) = None) ->
  forall key, key ∈ manifestWorkKeysOf resources ->
    snd (parse (index_string resources key)) = None.
Proof.
  intros H key (Hp & v & Hv)%manifestWorkKeysOf_elem.
  unfold index_string. rewrite Hv. simpl. by apply (H key v).
Qed.

Lemma mainBlock_all (resources : gmap string string) (mainMWKey : string) :
  (forall jsonStr, resources !! mainMWKey = Some jsonStr ->
     snd (parseMainManifestWork jsonStr) = None) ->
  exists r, mainBlock resources mainMWKey = inl r.
Proof.
  intros H. unfold mainBlock. destruct (resources !! mainMWKey) as [jsonStr|]; [|by eexists].
  specialize (H jsonStr eq_refl).
  destruct (parseMainManifestWork_shape jsonStr) as [[result Hr]|[err Herr]].
  - rewrite Hr. by eexists.
  - rewrite Herr in H. done.
Qed.

(** X18. [parseLiveResources] adds no failure of its own: when the sync
    status and the node pools of every manifest_work document parse, the
    main document parses if there is one, and every certificate document
    parses, every run returns a snapshot and no error. *)
Theorem parseLiveResources_succeeds (resources : gmap string string) (clusterID : string)
    (r : option HCPStatus * option error) :
  (forall key jsonStr,
     resources !! key = Some jsonStr -> HasPrefix key "manifest_work-" = true ->
     snd (parseManifestWorkSyncStatus jsonStr) = None /\
     snd (parseManifestWorkNodePools jsonStr) = None) ->
  (forall jsonStr,
     resources !! ("manifest_work-" +:+ clusterID) = Some jsonStr ->
     snd (parseMainManifestWork jsonStr) = None) ->
  (forall key jsonStr,
     resources !! key = Some jsonStr -> HasPrefix key "certificate-" = true ->
     snd (parseCertificate jsonStr) = None) ->
  mayReturn resources clusterID r ->
  exists status, r = (Some status, None).
Proof.
  intros Hmw Hmain Hcert (o1 & o2 & H1 & H2 & <-).
  unfold parseLiveResources. cbv zeta.
  rewrite (manifestWorkKeysOf_order resources o1 H1).
  destruct (syncLoop_all resources (manifestWorkKeysOf resources) []) as [mws ->].
  { apply manifestWorkKeysOf_all. intros key jsonStr Hk Hp. by apply (Hmw key jsonStr). }
  destruct (mainBlock_all resources ("manifest_work-" +:+ clusterID) Hmain)
    as [[[[conds ver] mgmt] api] ->].
  destruct (nodePoolLoop_all resources (manifestWorkKeysOf resources) []) as [nps ->].
  { apply manifestWorkKeysOf_all. intros key jsonStr Hk Hp. by apply (Hmw key jsonStr). }
  rewrite certLoop_first.
  destruct (firstCertificate o2) as [[ck cj]|] eqn:E; [|by eexists].
  destruct (firstCertificate_elem resources o2 ck cj H2 E) as [Hp Hv].
  specialize (Hcert ck cj Hv Hp).
  destruct (parseCertificate_shape cj) as [[cs Hcs]|[err Herr]].
  - rewrite Hcs. by eexists.
  - rewrite Herr in Hcert. done.
Qed.

(** X19. When the sync status of every manifest_work document parses and
    the main document does not, every run fails with the error of the
    main document, whatever the node pools and the certificates are. *)
Theorem parseLiveResources_main_error (resources : gmap string string)
    (clusterID jsonStr : string) (inner : error)
    (r : option HCPStatus * option error) :
  (forall key jsonStr',
     resources !! key = Some jsonStr' -> HasPrefix key "manifest_work-" = true ->
     snd (parseManifestWorkSyncStatus jsonStr') = None) ->
  resources !! ("manifest_work-" +:+ clusterID) = Some jsonStr ->
  snd (parseMainManifestWork jsonStr) = Some inner ->
  mayReturn resources clusterID r ->
  r = (None, Some ("failed to parse main ManifestWork: " +:+ inner)).
Proof.
  intros Hsync Hmain Hbad (o1 & o2 & H1 & H2 & <-).
  unfold parseLiveResources. cbv zeta.
  rewrite (manifestWorkKeysOf_order resources o1 H1).
  destruct (syncLoop_all resources (manifestWorkKeysOf resources) []) as [mws ->].
  { by apply manifestWorkKeysOf_all. }
  unfold mainBlock. rewrite Hmain.
  destruct (parseMainManifestWork jsonStr) as [result [err|]]; simpl in Hbad; [|done].
  injection Hbad as ->. by destruct result.
Qed.

(** X20. When the sync statuses and the main document parse and the node
    pools of a manifest_work document do not, every run fails with the
    error of the least such key, whatever the certificates are. *)
Theorem parseLiveResources_node_pool_error (resources : gmap string string)
    (clusterID key jsonStr : string) (inner : error)
    (r : option HCPStatus * option error) :
  (forall key' jsonStr',
     resources !! key' = Some jsonStr' -> HasPrefix key' "manifest_work-" = true ->
     snd (parseManifestWorkSyncStatus jsonStr') = None) ->
  (forall jsonStr',
     resources !! ("manifest_work-" +:+ clusterID) = Some jsonStr' ->
     snd (parseMainManifestWork jsonStr') = None) ->
  resources !! key = Some jsonStr ->
  HasPrefix key "manifest_work-" = true ->
  snd (parseManifestWorkNodePools jsonStr) = Some inner ->
  (forall key' jsonStr',
     resources !! key' = Some jsonStr' -> HasPrefix key' "manifest_work-" = true ->
     String.le key' key -> key' <> key ->
     snd (parseManifestWorkNodePools jsonStr') = None) ->
  mayReturn resources clusterID r ->
  r = (None, Some ("failed to parse NodePool from " +:+ key +:+ ": " +:+ inner)).
Proof.
  intros Hsync Hmain Hkey Hp Hbad Hless (o1 & o2 & H1 & H2 & <-).
  unfold parseLiveResources. cbv zeta.
  rewrite (manifestWorkKeysOf_order resources o1 H1).
  destruct (syncLoop_all resources (manifestWorkKeysOf resources) []) as [mws ->].
  { by apply manifestWorkKeysOf_all. }
  destruct (mainBlock_all resources ("manifest_work-" +:+ clusterID) Hmain)
    as [[[[conds ver] mgmt] api] ->].
  assert (key ∈ manifestWorkKeysOf resources) as Hin
    by (apply manifestWorkKeysOf_elem; eauto).
  apply list_elem_of_split in Hin as (l1 & l2 & Hsplit).
  pose proof (manifestWorkKeysOf_NoDup resources) as Hnd.
  pose proof (Sorted_StronglySorted String.le _ (manifestWorkKeysOf_Sorted resources)) as Hss.
  rewrite Hsplit in Hnd, Hss.
  assert (forall k, k ∈ l1 -> k ∈ manifestWorkKeysOf resources) as Hl1
    by (intros k Hk; rewrite Hsplit; apply elem_of_app; by left).
  rewrite Hsplit.
  rewrite (nodePoolLoop_first_failure resources l1 l2 key [] inner); [done| |].
  - intros k Hk.
    pose proof (Hl1 k Hk) as Hk'.
    apply manifestWorkKeysOf_elem in Hk' as (Hkp & v & Hv).
    unfold index_string. rewrite Hv. simpl. apply (Hless k v Hv Hkp).
    + eapply (StronglySorted_app_1_elem_of String.le l1 (key :: l2)); [done..|by left].
    + intros ->. apply NoDup_app in Hnd as (_ & Hdisj & _).
      apply (Hdisj key Hk). by left.
  - unfold index_string. by rewrite Hkey.
Qed.

End ErrorPrecedence.

(** ** More properties at concrete documents *)

Section MoreOnText.

Import Docs MoreDocs.

#[local] Existing Instance textRuntime.

Ltac decoded H call :=
  eassert (call = Decoded _) as H by (vm_compute; reflexivity).

Ltac distinct_keys :=
  apply rangeOrder_list_to_map; apply (bool_decide_unpack _); vm_compute; exact I.

(** An instance: a field of the condition Available lands in a condition,
    not in the extras. *)
Lemma parseFeedbackValues_covers_input_witness :
  let result := parseFeedbackValues
                  [fvString "Available-Status" "True"; fvInteger "Replicas" 2] in
  "Available" ∈ map Condition_Type (fst result) /\
  snd result !! "Available-Status" = None.
Proof.
  apply (parseFeedbackValues_covers_input
           [fvString "Available-Status" "True"; fvInteger "Replicas" 2]
           (fvString "Available-Status" "True")).
  left.
Defined.

(** An instance: the status of a condition type with a hyphen in it is
    kept as an extra. *)
Lemma parseFeedbackValues_hyphenated_type_witness :
  snd (parseFeedbackValues
         [fvString "Etcd-Available-Status" "True"; fvString "Available-Status" "False"])
    !! "Etcd-Available-Status"
  = Some "True".
Proof.
  destruct (parseFeedbackValues_hyphenated_type
              [fvString "Etcd-Available-Status" "True"; fvString "Available-Status" "False"]
              (fvString "Etcd-Available-Status" "True"))
    as (_ & _ & H).
  - left.
  - vm_compute. lia.
  - etransitivity; [exact H|]. vm_compute. reflexivity.
Defined.

(** An instance: a Secret entry, an unread label and sync conditions do
    not change the result. *)
Lemma parseMainManifestWork_reads_only_witness :
  parseMainManifestWork twoHostedClustersAndMore = parseMainManifestWork twoHostedClusters.
Proof.
  decoded H (Unmarshal_main twoHostedClustersAndMore).
  decoded H' (Unmarshal_main twoHostedClusters).
  apply (parseMainManifestWork_reads_only _ _ _ _ H H'); vm_compute; reflexivity.
Defined.

(** An instance: two updates from one comma. *)
Lemma parseMainManifestWork_available_updates_witness :
  exists result,
    parseMainManifestWork twoHostedClusters = (Some result, None) /\
    Join (Version_AvailableUpdates (Result_Version result)) "," = "4.21.1,4.21.2" /\
    length (Version_AvailableUpdates (Result_Version result)) = 2%nat.
Proof.
  decoded H (Unmarshal_main twoHostedClusters).
  destruct (parseMainManifestWork_available_updates _ _ "4.21.1,4.21.2" H)
    as (result & Hr & Hjoin & Hlen & _).
  - vm_compute. reflexivity.
  - exists result. split; [exact Hr|]. split; [exact Hjoin|exact Hlen].
Defined.

(** An instance: the first pool of [nodePools] has three replicas. *)
Lemma parseManifestWorkNodePools_integer_replicas_witness :
  exists np,
    fst (parseManifestWorkNodePools nodePools) !! 0%nat = Some np /\
    NodePool_Name np = "test-workers" /\ NodePool_Replicas np = 3.
Proof.
  decoded H (Unmarshal_pool nodePools).
  pose proof (fun m => parseManifestWorkNodePools_integer_replicas _ _ 0%nat m
                         (fvInteger "Replicas" 3) H) as Hpool.
  edestruct Hpool as (np & Hnp & Hname & Hreplicas).
  - vm_compute. reflexivity.
  - vm_compute. reflexivity.
  - reflexivity.
  - reflexivity.
  - exists np. split; [exact Hnp|]. split; [exact Hname|exact Hreplicas].
Defined.

Lemma mayReturn_live :
  exists status, mayReturn liveResources "testid" (Some status, None).
Proof.
  assert (rangeOrder liveResources liveEntries) as H by distinct_keys.
  eexists. exists liveEntries, liveEntries. split; [exact H|]. split; [exact H|].
  vm_compute. reflexivity.
Defined.

(** An instance: the mapping of [TestParseLiveResources]. *)
Lemma parseLiveResources_sorted_documents_witness :
  exists status,
    mayReturn liveResources "testid" (Some status, None) /\
    ManifestWorks status
      = map (fun key => fst (parseManifestWorkSyncStatus (index_string liveResources key)))
          (manifestWorkKeysOf liveResources) /\
    manifestWorkKeysOf liveResources = ["manifest_work-testid"; "manifest_work-testid-workers"] /\
    ClusterID status = "".
Proof.
  destruct mayReturn_live as [status H]. exists status. split; [exact H|].
  destruct (parseLiveResources_sorted_documents liveResources "testid" status H)
    as (_ & _ & _ & Hm & _ & Hid & _).
  split; [exact Hm|]. split; [vm_compute; reflexivity|exact Hid].
Defined.

(** An instance: the control plane of the mapping of
    [TestParseLiveResources] is that of its main document. *)
Lemma parseLiveResources_main_document_witness :
  exists status result,
    mayReturn liveResources "testid" (Some status, None) /\
    parseMainManifestWork liveMain = (Some result, None) /\
    ManagementCluster status = Result_MgmtCluster result /\
    Version status = Result_Version result.
Proof.
  destruct mayReturn_live as [status H].
  pose proof (parseLiveResources_main_document liveResources "testid" status H) as Hmain.
  assert (liveResources !! ("manifest_work-" +:+ "testid") = Some liveMain) as E
    by (vm_compute; reflexivity).
  rewrite E in Hmain. destruct Hmain as (result & Hr & _ & Hv & Hm & _).
  exists status, result. split; [exact H|]. split; [exact Hr|]. split; [exact Hm|exact Hv].
Defined.

(** An instance: the mapping of [TestParseLiveResources] has a
    certificate document, so the snapshot has an ingress certificate. *)
Lemma parseLiveResources_ingress_certificate_witness :
  exists status,
    mayReturn liveResources "testid" (Some status, None) /\
    IngressCertificate status <> None.
Proof.
  destruct mayReturn_live as [status H]. exists status. split; [exact H|].
  destruct (parseLiveResources_ingress_certificate liveResources "testid" status H)
    as [Hnone _].
  intros Hn.
  assert (is_Some (liveResources !! "certificate-testid")) as Hs
    by (vm_compute; eexists; reflexivity).
  pose proof (proj1 Hnone Hn "certificate-testid" Hs) as Hp.
  vm_compute in Hp. discriminate Hp.
Defined.

(** An instance: of two manifest works that do not decode, the error
    names the one with the smaller key, though the map was visited from
    the greater. *)
Lemma parseLiveResources_least_failing_key_witness :
  parseLiveResources twoBadManifestWorksEntries twoBadManifestWorksEntries
    twoBadManifestWorks "x"
  = (None, Some "failed to parse ManifestWork sync status for manifest_work-b: invalid JSON: invalid character 'n' looking for beginning of object key string").
Proof.
  assert (rangeOrder twoBadManifestWorks twoBadManifestWorksEntries) as H by distinct_keys.
  etransitivity;
    [apply (parseLiveResources_least_failing_key twoBadManifestWorks "x" _
              "manifest_work-b" malformed
              "invalid JSON: invalid character 'n' looking for beginning of object key string")|].
  - exists twoBadManifestWorksEntries, twoBadManifestWorksEntries.
    split; [exact H|]. split; [exact H|]. reflexivity.
  - vm_compute. reflexivity.
  - vm_compute. reflexivity.
  - vm_compute. reflexivity.
  - intros key' jsonStr' Hlook _ Hle Hne.
    apply (rangeOrder_lookup _ _ _ _ H) in Hlook.
    apply elem_of_cons in Hlook as [Heq|Hlook].
    { injection Heq as -> ->. vm_compute in Hle. destruct Hle. }
    apply elem_of_cons in Hlook as [Heq|Hlook].
    { injection Heq as -> ->. destruct (Hne eq_refl). }
    apply elem_of_cons in Hlook as [Heq|Hlook].
    { injection Heq as -> ->. vm_compute. reflexivity. }
    by apply elem_of_nil in Hlook.
  - vm_compute. reflexivity.
Defined.

(** Case analysis on the entry a lookup found. *)
Ltac entry_of H Hlook :=
  apply (rangeOrder_lookup _ _ _ _ H) in Hlook;
  repeat (apply elem_of_cons in Hlook as [Hlook|Hlook]; [injection Hlook as -> ->|]);
  [..|by apply elem_of_nil in Hlook].

(** An instance: every document of the mapping of
    [TestParseLiveResources] parses. *)
Lemma parseLiveResources_succeeds_witness :
  exists status,
    parseLiveResources liveEntries liveEntries liveResources "testid" = (Some status, None).
Proof.
  assert (rangeOrder liveResources liveEntries) as H by distinct_keys.
  apply (parseLiveResources_succeeds liveResources "testid").
  - intros key jsonStr Hlook Hp. entry_of H Hlook; split; vm_compute; reflexivity.
  - intros jsonStr Hlook.
    assert (liveResources !! ("manifest_work-" +:+ "testid") = Some liveMain) as E
      by (vm_compute; reflexivity).
    rewrite E in Hlook. injection Hlook as <-. vm_compute. reflexivity.
  - intros key jsonStr Hlook Hp. entry_of H Hlook;
      first [discriminate Hp | vm_compute; reflexivity].
  - by exists liveEntries, liveEntries.
Defined.

(** An instance: the main document does not bind, and neither do its node
    pools nor the certificate; the error is that of the main document. *)
Lemma parseLiveResources_main_error_witness :
  exists inner,
    parseLiveResources badMainEntries badMainEntries badMain "x"
    = (None, Some ("failed to parse main ManifestWork: " +:+ inner)).
Proof.
  assert (rangeOrder badMain badMainEntries) as H by distinct_keys.
  eexists.
  apply (parseLiveResources_main_error badMain "x" manifestsNotAList).
  - intros key jsonStr Hlook Hp. entry_of H Hlook;
      first [discriminate Hp | vm_compute; reflexivity].
  - vm_compute. reflexivity.
  - vm_compute. reflexivity.
  - by exists badMainEntries, badMainEntries.
Defined.

(** An instance: of two worker documents whose node pools do not parse,
    the error names the one with the smaller key. *)
Lemma parseLiveResources_node_pool_error_witness :
  exists inner,
    parseLiveResources badNodePoolsEntries badNodePoolsEntries badNodePools "x"
    = (None, Some ("failed to parse NodePool from manifest_work-x-b: " +:+ inner)).
Proof.
  assert (rangeOrder badNodePools badNodePoolsEntries) as H by distinct_keys.
  eexists.
  apply (parseLiveResources_node_pool_error badNodePools "x" "manifest_work-x-b"
           manifestsNotAList).
  - intros key jsonStr Hlook Hp. entry_of H Hlook; vm_compute; reflexivity.
  - intros jsonStr Hlook.
    assert (badNodePools !! ("manifest_work-" +:+ "x") = None) as E
      by (vm_compute; reflexivity).
    rewrite E in Hlook. discriminate Hlook.
  - vm_compute. reflexivity.
  - vm_compute. reflexivity.
  - vm_compute. reflexivity.
  - intros key jsonStr Hlook _ Hle Hne. entry_of H Hlook.
    + vm_compute in Hle. destruct Hle.
    + destruct (Hne eq_refl).
    + vm_compute. reflexivity.
  - by exists badNodePoolsEntries, badNodePoolsEntries.
Defined.

(** ** The hive shard and the instance of a node, at concrete answers *)

Example GetHiveCluster_documented_format :
  GetHiveCluster (fun _ => (Some hiveShard, None)) "1a2b3c" = ("hivep04ew2", None).
Proof. vm_compute. reflexivity. Qed.

Example GetHiveCluster_request_error :
  GetHiveCluster (fun _ => (None, Some "status is 404")) "1a2b3c"
  = ("", Some "Unable to retrieve shard for cluster 1a2b3c").
Proof. vm_compute. reflexivity. Qed.

Example getNodeAwsInstanceData_last_name_tag :
  getNodeAwsInstanceData (fun _ => (Some taggedInstance, None)) "ip-10-0-0-1.ec2.internal"
  = (Returns ("cluster-master-1", "i-0123456789abcdef0"),
     "Node ip-10-0-0-1.ec2.internal found as AWS internal InstanceId i-0123456789abcdef0 with machine name cluster-master-1" +:+ String "010" "").
Proof. vm_compute. reflexivity. Qed.

End MoreOnText.
